(** * go-search-logger: the coalescing search logger

    A shallow embedding of [internal/searchlogger/search_logger.go]
    (with the digest of [crypto/sha256] that [generateAnonID] relies on)
    and the properties of its two write paths: the synchronous reset flush
    of [LogSearch] and the expiry flush of [StartKeyspaceListener].

    Go strings are byte strings: they are [string] here, one [ascii] per
    byte.  Redis is a finite map from keys to a value and its time to live,
    the table [user_searches] is the list of its rows in insertion order.
    Every command sent to either service is recorded, and a [Logger]
    carries which commands of its clients fail.  The [context.Context]
    arguments and the calls of [log.Printf] are left out; the cancellation
    of the listener is an event it receives. *)

From Stdlib Require Import ZArith Ascii String List Bool Lia.
From stdpp Require Import base option strings gmap.
Import ListNotations.

Local Open Scope string_scope.

(** ** UTF-8, as package [unicode/utf8] decodes and encodes it

    A rune is a code point in [Z]; a Go string is here the list of its
    bytes when a function walks it by index. *)

Module utf8.
Local Open Scope Z_scope.

Definition RuneError : Z := 0xFFFD.
Definition RuneSelf : Z := 0x80.
Definition MaxRune : Z := 0x10FFFF.

Definition surrogateMin : Z := 0xD800.
Definition surrogateMax : Z := 0xDFFF.

Definition maskx : Z := 0x3F.
Definition mask2 : Z := 0x1F.
Definition mask3 : Z := 0x0F.
Definition mask4 : Z := 0x07.

Definition rune1Max : Z := 0x7F.
Definition rune2Max : Z := 0x7FF.
Definition rune3Max : Z := 0xFFFF.

(** The default lowest and highest continuation byte. *)
Definition locb : Z := 0x80.
Definition hicb : Z := 0xBF.

(** The value of a byte, and [byte(x)], which keeps the low eight bits. *)
Definition byte (c : ascii) : Z := Z.of_N (N_of_ascii c).
Definition toByte (x : Z) : ascii := ascii_of_N (Z.to_N (x mod 256)).

(** [s[i]] *)
Definition at_ (s : list ascii) (i : nat) : Z := byte (nth i s zero).

(** The table [first]: what the first byte of a sequence says.  [as_]
    is an ASCII byte, [xx] a byte that begins no sequence, and
    [lead size lo hi] a leading byte of a sequence of [size] bytes whose
    second byte lies between [lo] and [hi] (the table [acceptRanges]). *)
Inductive firstByte : Type :=
| as_
| xx
| lead (size : nat) (lo hi : Z).

Definition first (s0 : Z) : firstByte :=
  if s0 <? 0x80 then as_
  else if s0 <? 0xC2 then xx
  else if s0 <? 0xE0 then lead 2 locb hicb
  else if s0 =? 0xE0 then lead 3 0xA0 hicb
  else if s0 <? 0xED then lead 3 locb hicb
  else if s0 =? 0xED then lead 3 locb 0x9F
  else if s0 <? 0xF0 then lead 3 locb hicb
  else if s0 =? 0xF0 then lead 4 0x90 hicb
  else if s0 <? 0xF4 then lead 4 locb hicb
  else if s0 =? 0xF4 then lead 4 locb 0x8F
  else xx.

(** [DecodeRuneInString] unpacks the first UTF-8 encoding in [s] and
    returns the rune and its width in bytes; an encoding that is not
    valid gives [(RuneError, 1)], the empty string [(RuneError, 0)]. *)
Definition DecodeRuneInString (s : list ascii) : Z * nat :=
  let n := length s in
  if (n <? 1)%nat then (RuneError, 0%nat)
  else
    let s0 := at_ s 0 in
    match first s0 with
    | as_ => (s0, 1%nat)
    | xx => (RuneError, 1%nat)
    | lead sz lo hi =>
        if (n <? sz)%nat then (RuneError, 1%nat)
        else
          let s1 := at_ s 1 in
          if (s1 <? lo) || (hi <? s1) then (RuneError, 1%nat)
          else if (sz <=? 2)%nat
          then (Z.lor (Z.shiftl (Z.land s0 mask2) 6) (Z.land s1 maskx), 2%nat)
          else
            let s2 := at_ s 2 in
            if (s2 <? locb) || (hicb <? s2) then (RuneError, 1%nat)
            else if (sz <=? 3)%nat
            then (Z.lor (Z.lor (Z.shiftl (Z.land s0 mask3) 12)
                               (Z.shiftl (Z.land s1 maskx) 6))
                        (Z.land s2 maskx), 3%nat)
            else
              let s3 := at_ s 3 in
              if (s3 <? locb) || (hicb <? s3) then (RuneError, 1%nat)
              else (Z.lor (Z.lor (Z.lor (Z.shiftl (Z.land s0 mask4) 18)
                                        (Z.shiftl (Z.land s1 maskx) 12))
                                 (Z.shiftl (Z.land s2 maskx) 6))
                          (Z.land s3 maskx), 4%nat)
    end.

(** [RuneStart] reports whether the byte could be the first byte of an
    encoded rune: continuation bytes have their top bits set to 10. *)
Definition RuneStart (b : Z) : bool := negb (Z.land b 0xC0 =? 0x80).

(** The loop of [DecodeLastRuneInString] that steps [start] back to a
    byte that starts a rune, not below [lim]; it leaves with [start]
    below [lim] when there is none. *)
Fixpoint lastStart (s : list ascii) (fuel : nat) (start lim : Z) : Z :=
  match fuel with
  | O => start
  | S fuel' =>
      if start <? lim then start
      else if RuneStart (at_ s (Z.to_nat start)) then start
      else lastStart s fuel' (start - 1) lim
  end.

(** [DecodeLastRuneInString] unpacks the last UTF-8 encoding in [s]. *)
Definition DecodeLastRuneInString (s : list ascii) : Z * nat :=
  let end_ := Z.of_nat (length s) in
  if end_ =? 0 then (RuneError, 0%nat)
  else
    let start := end_ - 1 in
    let r := at_ s (Z.to_nat start) in
    if r <? RuneSelf then (r, 1%nat)
    else
      let lim := Z.max 0 (end_ - 4) in
      let start := lastStart s 4 (start - 1) lim in
      let start := Z.max 0 start in
      let (r, size) := DecodeRuneInString (skipn (Z.to_nat start) s) in
      if start + Z.of_nat size =? end_ then (r, size) else (RuneError, 1%nat).

(** [RuneLen] is the number of bytes of the encoding of the rune, [-1]
    for a value that has none. *)
Definition RuneLen (r : Z) : Z :=
  if r <? 0 then -1
  else if r <=? rune1Max then 1
  else if r <=? rune2Max then 2
  else if (surrogateMin <=? r) && (r <=? surrogateMax) then -1
  else if r <=? rune3Max then 3
  else if r <=? MaxRune then 4
  else -1.

Definition encode3 (r : Z) : list ascii :=
  [ toByte (Z.lor 0xE0 (Z.shiftr r 12));
    toByte (Z.lor 0x80 (Z.land (Z.shiftr r 6) maskx));
    toByte (Z.lor 0x80 (Z.land r maskx)) ].

(** [AppendRune] on an empty buffer: the UTF-8 encoding of the rune,
    that of [RuneError] for a value that is no rune. *)
Definition AppendRune (r : Z) : list ascii :=
  if (0 <=? r) && (r <=? rune1Max) then [toByte r]
  else if (0 <=? r) && (r <=? rune2Max)
  then [ toByte (Z.lor 0xC0 (Z.shiftr r 6));
         toByte (Z.lor 0x80 (Z.land r maskx)) ]
  else if (r <? 0) || (MaxRune <? r)
          || ((surrogateMin <=? r) && (r <=? surrogateMax))
  then encode3 RuneError
  else if r <=? rune3Max then encode3 r
  else [ toByte (Z.lor 0xF0 (Z.shiftr r 18));
         toByte (Z.lor 0x80 (Z.land (Z.shiftr r 12) maskx));
         toByte (Z.lor 0x80 (Z.land (Z.shiftr r 6) maskx));
         toByte (Z.lor 0x80 (Z.land r maskx)) ].

End utf8.

(** ** The parts of package [unicode] that [strings] calls *)

Module unicode.
Local Open Scope Z_scope.

Definition MaxLatin1 : Z := 0xFF.
Definition MaxASCII : Z := 0x7F.

(** [IsSpace] reports whether the rune is a space character as defined
    by Unicode's White Space property; beyond Latin-1 these are the
    runes of the table [White_Space]. *)
Definition IsSpace (r : Z) : bool :=
  if (0 <=? r) && (r <=? MaxLatin1)
  then (r =? 9) || (r =? 10) || (r =? 11) || (r =? 12) || (r =? 13)
       || (r =? 32) || (r =? 0x85) || (r =? 0xA0)
  else (r =? 0x1680) || ((0x2000 <=? r) && (r <=? 0x200A))
       || (r =? 0x2028) || (r =? 0x2029) || (r =? 0x202F)
       || (r =? 0x205F) || (r =? 0x3000).

(** A range of [CaseRanges]: the runes from [Lo] to [Hi] and what to
    add to one of them to reach its lower case.  [UpperLower] marks a
    run in which upper and lower case alternate. *)
Record CaseRange := R { Lo : Z; Hi : Z; Delta : Z }.

Definition UpperLower : Z := utf8.MaxRune + 1.

(** The lower-case mappings of [CaseRanges] above ASCII (the
    [LowerCase] deltas of the table that Go generates from the Unicode
    Character Database, version 15.0.0); ranges whose runes are their
    own lower case are left out. *)
Definition CaseRanges : list CaseRange :=
  [ R 0x00c0 0x00d6 32; R 0x00d8 0x00de 32; R 0x0100 0x012f UpperLower;
    R 0x0130 0x0130 (-199); R 0x0132 0x0137 UpperLower;
    R 0x0139 0x0148 UpperLower; R 0x014a 0x0177 UpperLower;
    R 0x0178 0x0178 (-121); R 0x0179 0x017e UpperLower; R 0x0181 0x0181 210;
    R 0x0182 0x0185 UpperLower; R 0x0186 0x0186 206; R 0x0187 0x0187 1;
    R 0x0189 0x018a 205; R 0x018b 0x018b 1; R 0x018e 0x018e 79;
    R 0x018f 0x018f 202; R 0x0190 0x0190 203; R 0x0191 0x0191 1;
    R 0x0193 0x0193 205; R 0x0194 0x0194 207; R 0x0196 0x0196 211;
    R 0x0197 0x0197 209; R 0x0198 0x0198 1; R 0x019c 0x019c 211;
    R 0x019d 0x019d 213; R 0x019f 0x019f 214; R 0x01a0 0x01a5 UpperLower;
    R 0x01a6 0x01a6 218; R 0x01a7 0x01a7 1; R 0x01a9 0x01a9 218;
    R 0x01ac 0x01ac 1; R 0x01ae 0x01ae 218; R 0x01af 0x01af 1;
    R 0x01b1 0x01b2 217; R 0x01b3 0x01b6 UpperLower; R 0x01b7 0x01b7 219;
    R 0x01b8 0x01b8 1; R 0x01bc 0x01bc 1; R 0x01c4 0x01c4 2;
    R 0x01c5 0x01c5 1; R 0x01c7 0x01c7 2; R 0x01c8 0x01c8 1;
    R 0x01ca 0x01ca 2; R 0x01cb 0x01dc UpperLower;
    R 0x01de 0x01ef UpperLower; R 0x01f1 0x01f1 2;
    R 0x01f2 0x01f5 UpperLower; R 0x01f6 0x01f6 (-97); R 0x01f7 0x01f7 (-56);
    R 0x01f8 0x021f UpperLower; R 0x0220 0x0220 (-130);
    R 0x0222 0x0233 UpperLower; R 0x023a 0x023a 10795; R 0x023b 0x023b 1;
    R 0x023d 0x023d (-163); R 0x023e 0x023e 10792; R 0x0241 0x0241 1;
    R 0x0243 0x0243 (-195); R 0x0244 0x0244 69; R 0x0245 0x0245 71;
    R 0x0246 0x024f UpperLower; R 0x0370 0x0373 UpperLower;
    R 0x0376 0x0376 1; R 0x037f 0x037f 116; R 0x0386 0x0386 38;
    R 0x0388 0x038a 37; R 0x038c 0x038c 64; R 0x038e 0x038f 63;
    R 0x0391 0x03a1 32; R 0x03a3 0x03ab 32; R 0x03cf 0x03cf 8;
    R 0x03d8 0x03ef UpperLower; R 0x03f4 0x03f4 (-60); R 0x03f7 0x03f7 1;
    R 0x03f9 0x03f9 (-7); R 0x03fa 0x03fa 1; R 0x03fd 0x03ff (-130);
    R 0x0400 0x040f 80; R 0x0410 0x042f 32; R 0x0460 0x0481 UpperLower;
    R 0x048a 0x04bf UpperLower; R 0x04c0 0x04c0 15;
    R 0x04c1 0x04ce UpperLower; R 0x04d0 0x052f UpperLower;
    R 0x0531 0x0556 48; R 0x10a0 0x10c5 7264; R 0x10c7 0x10c7 7264;
    R 0x10cd 0x10cd 7264; R 0x13a0 0x13ef 38864; R 0x13f0 0x13f5 8;
    R 0x1c90 0x1cba (-3008); R 0x1cbd 0x1cbf (-3008);
    R 0x1e00 0x1e95 UpperLower; R 0x1e9e 0x1e9e (-7615);
    R 0x1ea0 0x1eff UpperLower; R 0x1f08 0x1f0f (-8); R 0x1f18 0x1f1d (-8);
    R 0x1f28 0x1f2f (-8); R 0x1f38 0x1f3f (-8); R 0x1f48 0x1f4d (-8);
    R 0x1f59 0x1f59 (-8); R 0x1f5b 0x1f5b (-8); R 0x1f5d 0x1f5d (-8);
    R 0x1f5f 0x1f5f (-8); R 0x1f68 0x1f6f (-8); R 0x1f88 0x1f8f (-8);
    R 0x1f98 0x1f9f (-8); R 0x1fa8 0x1faf (-8); R 0x1fb8 0x1fb9 (-8);
    R 0x1fba 0x1fbb (-74); R 0x1fbc 0x1fbc (-9); R 0x1fc8 0x1fcb (-86);
    R 0x1fcc 0x1fcc (-9); R 0x1fd8 0x1fd9 (-8); R 0x1fda 0x1fdb (-100);
    R 0x1fe8 0x1fe9 (-8); R 0x1fea 0x1feb (-112); R 0x1fec 0x1fec (-7);
    R 0x1ff8 0x1ff9 (-128); R 0x1ffa 0x1ffb (-126); R 0x1ffc 0x1ffc (-9);
    R 0x2126 0x2126 (-7517); R 0x212a 0x212a (-8383);
    R 0x212b 0x212b (-8262); R 0x2132 0x2132 28; R 0x2160 0x216f 16;
    R 0x2183 0x2183 1; R 0x24b6 0x24cf 26; R 0x2c00 0x2c2f 48;
    R 0x2c60 0x2c60 1; R 0x2c62 0x2c62 (-10743); R 0x2c63 0x2c63 (-3814);
    R 0x2c64 0x2c64 (-10727); R 0x2c67 0x2c6c UpperLower;
    R 0x2c6d 0x2c6d (-10780); R 0x2c6e 0x2c6e (-10749);
    R 0x2c6f 0x2c6f (-10783); R 0x2c70 0x2c70 (-10782); R 0x2c72 0x2c72 1;
    R 0x2c75 0x2c75 1; R 0x2c7e 0x2c7f (-10815); R 0x2c80 0x2ce3 UpperLower;
    R 0x2ceb 0x2cee UpperLower; R 0x2cf2 0x2cf2 1;
    R 0xa640 0xa66d UpperLower; R 0xa680 0xa69b UpperLower;
    R 0xa722 0xa72f UpperLower; R 0xa732 0xa76f UpperLower;
    R 0xa779 0xa77c UpperLower; R 0xa77d 0xa77d (-35332);
    R 0xa77e 0xa787 UpperLower; R 0xa78b 0xa78b 1; R 0xa78d 0xa78d (-42280);
    R 0xa790 0xa793 UpperLower; R 0xa796 0xa7a9 UpperLower;
    R 0xa7aa 0xa7aa (-42308); R 0xa7ab 0xa7ab (-42319);
    R 0xa7ac 0xa7ac (-42315); R 0xa7ad 0xa7ad (-42305);
    R 0xa7ae 0xa7ae (-42308); R 0xa7b0 0xa7b0 (-42258);
    R 0xa7b1 0xa7b1 (-42282); R 0xa7b2 0xa7b2 (-42261); R 0xa7b3 0xa7b3 928;
    R 0xa7b4 0xa7c3 UpperLower; R 0xa7c4 0xa7c4 (-48);
    R 0xa7c5 0xa7c5 (-42307); R 0xa7c6 0xa7c6 (-35384);
    R 0xa7c7 0xa7ca UpperLower; R 0xa7d0 0xa7d0 1;
    R 0xa7d6 0xa7d9 UpperLower; R 0xa7f5 0xa7f5 1; R 0xff21 0xff3a 32;
    R 0x10400 0x10427 40; R 0x104b0 0x104d3 40; R 0x10570 0x1057a 39;
    R 0x1057c 0x1058a 39; R 0x1058c 0x10592 39; R 0x10594 0x10595 39;
    R 0x10c80 0x10cb2 64; R 0x118a0 0x118bf 32; R 0x16e40 0x16e5f 32;
    R 0x1e900 0x1e921 34 ].

(** [to(LowerCase, r, caseRange)].  The ranges are disjoint and in
    order, so the range that the binary search of the source finds is
    the one range that holds the rune. *)
Definition to_lower (r : Z) (caseRange : list CaseRange) : Z :=
  match List.find (fun cr => (Lo cr <=? r) && (r <=? Hi cr)) caseRange with
  | Some cr =>
      if utf8.MaxRune <? Delta cr
      then Lo cr + Z.lor (Z.ldiff (r - Lo cr) 1) 1
      else r + Delta cr
  | None => r
  end.

(** [ToLower] maps the rune to lower case. *)
Definition ToLower (r : Z) : Z :=
  if r <=? MaxASCII
  then (if (65 <=? r) && (r <=? 90) then r + 32 else r)
  else to_lower r CaseRanges.

End unicode.

(** ** The parts of package [strings] that the logger calls *)

Module strings.
Local Open Scope Z_scope.

(** The table [asciiSpace]: tab, line feed, vertical tab, form feed,
    carriage return and space. *)
Definition asciiSpace (b : Z) : bool :=
  (b =? 9) || (b =? 10) || (b =? 11) || (b =? 12) || (b =? 13) || (b =? 32).

(** [indexFunc(s, f, truth)] for the bytes of [s] from index [i] on:
    the index of the first rune whose [f] is [truth].  It walks the
    string as [range] does, an invalid byte being [RuneError] of width
    one. *)
Fixpoint indexFunc (f : Z -> bool) (truth : bool) (fuel i : nat)
  (s : list ascii) : option nat :=
  match fuel with
  | O => None
  | S fuel' =>
      match s with
      | [] => None
      | _ =>
          let (r, size) := utf8.DecodeRuneInString s in
          if Bool.eqb (f r) truth then Some i
          else indexFunc f truth fuel' (i + size)%nat (skipn size s)
      end
  end.

(** [lastIndexFunc(s, f, truth)], walking back from index [i]. *)
Fixpoint lastIndexFunc (f : Z -> bool) (truth : bool) (fuel i : nat)
  (s : list ascii) : option nat :=
  match fuel with
  | O => None
  | S fuel' =>
      if (i =? 0)%nat then None
      else
        let (r, size) := utf8.DecodeLastRuneInString (firstn i s) in
        let i := (i - size)%nat in
        if Bool.eqb (f r) truth then Some i
        else lastIndexFunc f truth fuel' i s
  end.

(** [TrimLeftFunc] returns a slice of the string with all leading
    runes satisfying [f] removed. *)
Definition TrimLeftFunc (s : list ascii) (f : Z -> bool) : list ascii :=
  match indexFunc f false (length s) 0 s with
  | None => []
  | Some i => skipn i s
  end.

(** [TrimRightFunc] returns a slice of the string with all trailing
    runes satisfying [f] removed. *)
Definition TrimRightFunc (s : list ascii) (f : Z -> bool) : list ascii :=
  match lastIndexFunc f false (length s) (length s) s with
  | Some i =>
      if utf8.RuneSelf <=? utf8.at_ s i
      then firstn (i + snd (utf8.DecodeRuneInString (skipn i s))) s
      else firstn (i + 1) s
  | None => []
  end.

Definition TrimFunc (s : list ascii) (f : Z -> bool) : list ascii :=
  TrimRightFunc (TrimLeftFunc s f) f.

(** The second loop of [TrimSpace], on the reverse of [s[start:stop]]:
    it steps [stop] back over ASCII space and hands over to
    [TrimRightFunc] at a byte that is not ASCII. *)
Fixpoint TrimSpace_stop (r : list ascii) : list ascii :=
  match r with
  | [] => []
  | c :: r' =>
      if utf8.RuneSelf <=? utf8.byte c
      then TrimRightFunc (rev r) unicode.IsSpace
      else if asciiSpace (utf8.byte c) then TrimSpace_stop r'
      else rev r
  end.

(** The first loop of [TrimSpace], on [s[start:]]: it steps [start]
    over ASCII space and hands over to [TrimFunc] at a byte that is not
    ASCII. *)
Fixpoint TrimSpace_start (s : list ascii) : list ascii :=
  match s with
  | [] => TrimSpace_stop []
  | c :: s' =>
      if utf8.RuneSelf <=? utf8.byte c then TrimFunc s unicode.IsSpace
      else if asciiSpace (utf8.byte c) then TrimSpace_start s'
      else TrimSpace_stop (rev s)
  end.

(** [TrimSpace] returns a slice of the string with all leading and
    trailing white space removed, as defined by Unicode. *)
Definition TrimSpace (s : string) : string :=
  string_of_list_ascii (TrimSpace_start (list_ascii_of_string s)).

(** What [Map] writes for a mapped rune: nothing for a negative one. *)
Definition writeRune (r : Z) : list ascii :=
  if 0 <=? r then utf8.AppendRune r else [].

(** The second loop of [Map]: every rune of the rest is mapped and
    its encoding appended; an invalid byte is read as [RuneError]. *)
Fixpoint Map_rest (mapping : Z -> Z) (fuel : nat) (s : list ascii)
  : list ascii :=
  match fuel with
  | O => []
  | S fuel' =>
      match s with
      | [] => []
      | _ =>
          let (c, size) := utf8.DecodeRuneInString s in
          (writeRune (mapping c) ++ Map_rest mapping fuel' (skipn size s))%list
      end
  end.

(** The first loop of [Map]: runes that the mapping leaves alone stay
    as they stand in [s]; from the first rune that changes, or
    the first invalid byte, the output is built rune by rune. *)
Fixpoint Map_first (mapping : Z -> Z) (fuel : nat) (s : list ascii)
  : list ascii :=
  match fuel with
  | O => s
  | S fuel' =>
      match s with
      | [] => []
      | _ =>
          let (c, size) := utf8.DecodeRuneInString s in
          let r := mapping c in
          if (r =? c) && negb (c =? utf8.RuneError)
          then (firstn size s ++ Map_first mapping fuel' (skipn size s))%list
          else
            let width :=
              if c =? utf8.RuneError then Z.of_nat size else utf8.RuneLen c in
            if (c =? utf8.RuneError) && negb (width =? 1) && (r =? c)
            then (firstn size s ++ Map_first mapping fuel' (skipn size s))%list
            else (writeRune r
                  ++ Map_rest mapping fuel' (skipn (Z.to_nat width) s))%list
      end
  end.

(** [Map] returns a copy of the string with all its characters
    modified according to the mapping function. *)
Definition Map (mapping : Z -> Z) (s : list ascii) : list ascii :=
  Map_first mapping (length s) s.

Definition isUpperASCII (c : ascii) : bool :=
  (65 <=? utf8.byte c) && (utf8.byte c <=? 90).

(** [ToLower] returns the string with all Unicode letters mapped to
    their lower case; a string of ASCII bytes is lowered byte by byte. *)
Definition ToLower (s : string) : string :=
  let b := list_ascii_of_string s in
  if forallb (fun c => utf8.byte c <? utf8.RuneSelf) b
  then
    if existsb isUpperASCII b
    then string_of_list_ascii
           (map (fun c => if isUpperASCII c
                          then utf8.toByte (utf8.byte c + 32) else c) b)
    else s
  else string_of_list_ascii (Map unicode.ToLower b).

(** [HasPrefix s prefix]: [s] begins with [prefix]. *)
Definition HasPrefix (s prefix : string) : bool := String.prefix prefix s.

(** [TrimPrefix s prefix]: [s] without the leading [prefix], or [s]
    itself when it does not begin with it. *)
Definition TrimPrefix (s prefix : string) : string :=
  if HasPrefix s prefix
  then String.substring (String.length prefix)
                        (String.length s - String.length prefix) s
  else s.

End strings.

(** ** SHA-256, as [crypto/sha256.Sum256] computes it

    Words are 32-bit unsigned integers, held in [Z] and reduced modulo
    [2^32] after every addition. *)

Module sha256.
Local Open Scope Z_scope.

Definition wrap (x : Z) : Z := x mod 2 ^ 32.
Definition add32 (x y : Z) : Z := wrap (x + y).
Definition not32 (x : Z) : Z := Z.lxor x 0xffffffff.
Definition rotr (n x : Z) : Z :=
  Z.lor (Z.shiftr x n) (wrap (Z.shiftl x (32 - n))).

(** The constants, as FIPS 180-4 defines them: the first 32 bits of the
    fractional parts of the cube roots of the first 64 primes, and, for
    the initial chaining words, of the square roots of the first 8. *)
Definition isPrime (p : Z) : bool :=
  forallb (fun d => negb (p mod d =? 0))
          (map Z.of_nat (seq 2 (Z.to_nat (Z.sqrt p) - 1))).

Definition primes : list Z :=
  filter isPrime (map Z.of_nat (seq 2 310)).

(** The integer [k]-th root of [x] below [2 ^ bits], one bit at a time. *)
Fixpoint root (k : Z) (bits : nat) (x r : Z) : Z :=
  match bits with
  | O => r
  | S b =>
      let r' := r + 2 ^ Z.of_nat b in
      root k b x (if r' ^ k <=? x then r' else r)
  end.

Definition frac32 (k p : Z) : Z :=
  wrap (root k 40 (p * 2 ^ (32 * k)) 0).

Definition _K : list Z := Eval vm_compute in map (frac32 3) primes.

(** The eight chaining words. *)
Record digest := Digest { h0 : Z; h1 : Z; h2 : Z; h3 : Z;
                          h4 : Z; h5 : Z; h6 : Z; h7 : Z }.

Definition ofWords (ws : list Z) : digest :=
  let h i := nth i ws 0 in
  Digest (h 0%nat) (h 1%nat) (h 2%nat) (h 3%nat)
         (h 4%nat) (h 5%nat) (h 6%nat) (h 7%nat).

Definition init : digest :=
  Eval vm_compute in ofWords (map (frac32 2) (firstn 8 primes)).

(** Four bytes, big endian, to a word and back. *)
Definition be32 (b : list Z) : Z :=
  fold_left (fun acc x => Z.lor (Z.shiftl acc 8) x) b 0.

Definition bytes32 (w : Z) : list Z :=
  [ Z.land (Z.shiftr w 24) 0xff; Z.land (Z.shiftr w 16) 0xff;
    Z.land (Z.shiftr w 8) 0xff; Z.land w 0xff ].

Fixpoint words (n : nat) (b : list Z) : list Z :=
  match n with
  | O => []
  | S n' => be32 (firstn 4 b) :: words n' (skipn 4 b)
  end.

(** The message schedule, newest word first: [rev_w] holds
    [w[i-1]; w[i-2]; ...], and one step conses [w[i]]. *)
Definition schedule_step (rev_w : list Z) : list Z :=
  let v1 := nth 1 rev_w 0 in
  let t1 := Z.lxor (Z.lxor (rotr 17 v1) (rotr 19 v1)) (Z.shiftr v1 10) in
  let v2 := nth 14 rev_w 0 in
  let t2 := Z.lxor (Z.lxor (rotr 7 v2) (rotr 18 v2)) (Z.shiftr v2 3) in
  add32 (add32 (add32 t1 (nth 6 rev_w 0)) t2) (nth 15 rev_w 0) :: rev_w.

Definition schedule (p : list Z) : list Z :=
  rev (Nat.iter 48 schedule_step (rev (words 16 p))).

Definition round (d : digest) (kw : Z * Z) : digest :=
  let '(Digest a b c d e f g h) := d in
  let t1 :=
    add32 (add32 (add32 (add32 h
      (Z.lxor (Z.lxor (rotr 6 e) (rotr 11 e)) (rotr 25 e)))
      (Z.lxor (Z.land e f) (Z.land (not32 e) g))) (fst kw)) (snd kw) in
  let t2 :=
    add32 (Z.lxor (Z.lxor (rotr 2 a) (rotr 13 a)) (rotr 22 a))
          (Z.lxor (Z.lxor (Z.land a b) (Z.land a c)) (Z.land b c)) in
  Digest (add32 t1 t2) a b c (add32 d t1) e f g.

Definition block (d : digest) (p : list Z) : digest :=
  let r := fold_left round (combine _K (schedule p)) d in
  Digest (add32 (h0 d) (h0 r)) (add32 (h1 d) (h1 r))
         (add32 (h2 d) (h2 r)) (add32 (h3 d) (h3 r))
         (add32 (h4 d) (h4 r)) (add32 (h5 d) (h5 r))
         (add32 (h6 d) (h6 r)) (add32 (h7 d) (h7 r)).

Fixpoint blocks (n : nat) (d : digest) (p : list Z) : digest :=
  match n with
  | O => d
  | S n' => blocks n' (block d (firstn 64 p)) (skipn 64 p)
  end.

(** Padding: 0x80, zeros up to 56 modulo 64, then the length in bits
    as 8 bytes, big endian. *)
Definition pad (msg : list Z) : list Z :=
  let len := Z.of_nat (length msg) in
  let zeros := Z.to_nat ((55 - len) mod 64) in
  let bits := len * 8 in
  msg ++ [0x80] ++ repeat 0 zeros
      ++ bytes32 (Z.shiftr bits 32) ++ bytes32 (wrap bits).

Definition checkSum (msg : list Z) : list Z :=
  let p := pad msg in
  let d := blocks (Nat.div (length p) 64) init p in
  bytes32 (h0 d) ++ bytes32 (h1 d) ++ bytes32 (h2 d) ++ bytes32 (h3 d) ++
  bytes32 (h4 d) ++ bytes32 (h5 d) ++ bytes32 (h6 d) ++ bytes32 (h7 d).

Definition bytesOf (s : string) : list Z :=
  map (fun c => Z.of_nat (nat_of_ascii c)) (list_ascii_of_string s).

(** [Sum256([]byte(s))], the 32 bytes of the digest. *)
Definition Sum256 (s : string) : list Z := checkSum (bytesOf s).

End sha256.

(** ** [fmt.Sprintf("%x", ...)] on a byte array: two lower-case hexadecimal
    digits a byte. *)

Module fmt.

Definition hexDigits : list ascii :=
  list_ascii_of_string "0123456789abcdef".

Definition hexDigit (n : Z) : ascii :=
  nth (Z.to_nat (n mod 16)) hexDigits "0"%char.

Fixpoint hex (b : list Z) : string :=
  match b with
  | [] => EmptyString
  | x :: b' => String (hexDigit (x / 16)) (String (hexDigit x) (hex b'))
  end.

End fmt.

(** ** The logger *)

Module searchlogger.

(** [SearchEntry] represents a search to be logged. *)
Record SearchEntry := mkSearchEntry
  { UserID : string; Query : string; AnonID : string }.

(** A row of [user_searches].  The column [last_searched_at], which the
    server fills with [NOW()], is not kept: the table is the list of
    its rows, oldest first. *)
Record Row := mkRow
  { user_id : string; search_text : string; anon_id : string }.

(** The errors of the Redis client: [redis.Nil], the key does not
    exist, and a command that did not go through. *)
Inductive RedisError : Type := redis_Nil | redis_failed.

(** The errors that [writeSearch] and [LogSearch] return; the last
    one is [fmt.Errorf("redis set error: %v %v", err1, err2)]. *)
Inductive error : Type :=
| sql_BeginTx_failed
| sql_Exec_failed
| sql_Commit_failed
| redis_set_error (err1 err2 : option RedisError).

(** Every command sent to Redis or to the database, in the order sent. *)
Inductive Call : Type :=
| RedisGet (key : string)
| RedisSet (key value : string) (expiration : Z)
| RedisDel (key : string)
| SqlBeginTx
| SqlExec (args : list string)
| SqlRollback
| SqlCommit.

(** What the two services hold, and the commands they have received.
    A Redis entry is a value with its time to live in nanoseconds, as
    [time.Duration] counts. *)
Record World := mkWorld
  { redis : gmap string (string * Z);
    user_searches : list Row;
    calls : list Call }.

(** The two client handles of a [Logger].  A handle says which of its
    commands fail; a command that fails is sent and has no effect. *)
Record RedisClient := mkRedisClient
  { getFails : string -> bool;
    setFails : string -> bool;
    delFails : string -> bool }.

Inductive SqlFault := NoFault | BeginTxFails | ExecFails | CommitFails.

Record SqlDB := mkSqlDB { fault : SqlFault }.

Record Logger := mkLogger { Redis : RedisClient; DB : SqlDB }.

(** Stateful code is a function of the world. *)
Definition M (A : Type) : Type := World -> A * World.

Definition ret {A} (a : A) : M A := fun w => (a, w).

Definition bind {A B} (m : M A) (k : A -> M B) : M B :=
  fun w => let (a, w') := m w in k a w'.

Notation "x <- m ;; k" := (bind m (fun x => k))
  (at level 100, m at next level, right associativity).

Definition send (c : Call) : M unit :=
  fun w => (tt, mkWorld (redis w) (user_searches w) (calls w ++ [c])%list).

Definition Second : Z := 1000000000.
Definition Hour : Z := 3600 * Second.

(** *** Redis commands *)

(** [Get(key).Result()]: the value and [nil], or the empty string and
    an error; a missing key is the error [redis.Nil]. *)
Definition Get (c : RedisClient) (key : string) : M (string * option RedisError) :=
  _ <- send (RedisGet key) ;;
  fun w =>
    if getFails c key then ((EmptyString, Some redis_failed), w)
    else match redis w !! key with
         | Some (v, _) => ((v, None), w)
         | None => ((EmptyString, Some redis_Nil), w)
         end.

(** [Set(key, value, expiration).Err()] *)
Definition Set_ (c : RedisClient) (key value : string) (expiration : Z)
  : M (option RedisError) :=
  _ <- send (RedisSet key value expiration) ;;
  fun w =>
    if setFails c key then (Some redis_failed, w)
    else (None, mkWorld (<[key := (value, expiration)]> (redis w))
                        (user_searches w) (calls w)).

(** [Del(key).Err()] *)
Definition Del (c : RedisClient) (key : string) : M (option RedisError) :=
  _ <- send (RedisDel key) ;;
  fun w =>
    if delFails c key then (Some redis_failed, w)
    else (None, mkWorld (delete key (redis w)) (user_searches w) (calls w)).

(** *** Transactions

    A transaction is the list of rows it has staged; [Commit] appends
    them to the table. *)
Definition Tx : Type := list Row.

Definition BeginTx (db : SqlDB) : M (Tx * option error) :=
  _ <- send SqlBeginTx ;;
  match fault db with
  | BeginTxFails => ret ([], Some sql_BeginTx_failed)
  | _ => ret ([], None)
  end.

(** [insertQuery]: INSERT INTO user_searches (user_id, search_text,
    last_searched_at, anon_id) VALUES ($1, $2, NOW(), $3) *)
Definition insertQuery (args : list string) : list Row :=
  match args with
  | [a1; a2; a3] => [mkRow a1 a2 a3]
  | _ => []
  end.

Definition ExecContext (db : SqlDB) (tx : Tx) (args : list string)
  : M (Tx * option error) :=
  _ <- send (SqlExec args) ;;
  match fault db with
  | ExecFails => ret (tx, Some sql_Exec_failed)
  | _ => ret ((tx ++ insertQuery args)%list, None)
  end.

Definition Rollback (tx : Tx) : M unit := send SqlRollback.

Definition Commit (db : SqlDB) (tx : Tx) : M (option error) :=
  _ <- send SqlCommit ;;
  match fault db with
  | CommitFails => ret (Some sql_Commit_failed)
  | _ => fun w => (None, mkWorld (redis w) (user_searches w ++ tx)%list (calls w))
  end.

(** *** The functions of [search_logger.go] *)

(** [normalizeQuery] lowercases and trims the input search query. *)
Definition normalizeQuery (query : string) : string :=
  strings.ToLower (strings.TrimSpace query).

(** [buildRedisKey] constructs a Redis key for storing the last search
    of a user. *)
Definition buildRedisKey (userID : string) : string :=
  "search:last:" ++ userID.

(** [generateAnonID] generates a stable anonymous ID from the
    User-Agent string. *)
Definition generateAnonID (userAgent : string) : string :=
  "anon" ++ fmt.hex (sha256.Sum256 userAgent).

(** [writeSearch] writes the user's search query to the SQL database
    in a transaction.  The deferred [recover] of the source rolls back
    and raises the panic again; no command of the model panics, so it
    has no counterpart here. *)
Definition writeSearch (l : Logger) (entry : SearchEntry) : M (option error) :=
  if (Query entry =? "")%string then ret None
  else
    r <- BeginTx (DB l) ;;
    let (tx, err) := r in
    match err with
    | Some e => ret (Some e)
    | None =>
        let args := [UserID entry; Query entry; AnonID entry] in
        r <- ExecContext (DB l) tx args ;;
        let (tx, err) := r in
        match err with
        | Some e => _ <- Rollback tx ;; ret (Some e)
        | None => Commit (DB l) tx
        end
    end.

(** The locals [isAnon], [anonID], [idForRedis] and [bufferKey] of
    [LogSearch], as functions of its arguments. *)
Definition isAnon (userID : string) : bool :=
  (strings.TrimSpace userID =? "")%string.

Definition anonID (userID userAgent : string) : string :=
  if isAnon userID then generateAnonID userAgent else "".

Definition idForRedis (userID userAgent : string) : string :=
  if isAnon userID then anonID userID userAgent else userID.

Definition bufferKey (id : string) : string := "search:buffer:" ++ id.

(** The test of [LogSearch] for a reset: the last query is there and
    neither query begins with the other. *)
Definition isReset (lastQuery normalizedQuery : string) : bool :=
  negb (lastQuery =? "")%string
  && negb (strings.HasPrefix normalizedQuery lastQuery)
  && negb (strings.HasPrefix lastQuery normalizedQuery).

(** [LogSearch] processes and logs a user's search query. *)
Definition LogSearch (l : Logger) (userID userAgent query : string)
  : M (option error) :=
  let normalizedQuery := normalizeQuery query in
  if (normalizedQuery =? "")%string then ret None
  else
    let anonID := anonID userID userAgent in
    let idForRedis := idForRedis userID userAgent in
    let redisKey := buildRedisKey idForRedis in
    let bufferKey := bufferKey idForRedis in
    r <- Get (Redis l) redisKey ;;
    let (lastQuery, _) := r in
    err <- (if isReset lastQuery normalizedQuery
            then writeSearch l (mkSearchEntry userID lastQuery anonID)
            else ret None) ;;
    match err with
    | Some e => ret (Some e)
    | None =>
        err1 <- Set_ (Redis l) redisKey normalizedQuery (10 * Second) ;;
        err2 <- Set_ (Redis l) bufferKey normalizedQuery (1 * Hour) ;;
        match err1, err2 with
        | None, None => ret None
        | _, _ => ret (Some (redis_set_error err1 err2))
        end
    end.

(** One turn of the loop of [StartKeyspaceListener] on a message of
    the subscription: [expiredKey] is its payload. *)
Definition onExpired (l : Logger) (expiredKey : string) : M unit :=
  if negb (strings.HasPrefix expiredKey "search:last:") then ret tt
  else
    let userID := strings.TrimPrefix expiredKey "search:last:" in
    let bufferKey := bufferKey userID in
    r <- Get (Redis l) bufferKey ;;
    let (query, err) := r in
    match err with
    | Some _ => ret tt
    | None =>
        let isAnon := strings.HasPrefix userID "anon" in
        let entry :=
          if isAnon then mkSearchEntry "" query userID
          else mkSearchEntry userID query "" in
        err <- writeSearch l entry ;;
        match err with
        | Some _ => ret tt
        | None => _ <- Del (Redis l) bufferKey ;; ret tt
        end
    end.

(** What the listener's [select] receives: the context is done, or a
    message arrives on the channel of expired keys. *)
Inductive Received := ctxDone | msg (Payload : string).

(** [StartKeyspaceListener] listens to Redis key expiry events and
    flushes expired queries to the DB; it runs until the context is
    done. *)
Fixpoint StartKeyspaceListener (l : Logger) (rs : list Received) : M unit :=
  match rs with
  | [] => ret tt
  | ctxDone :: _ => ret tt
  | msg expiredKey :: rs' =>
      _ <- onExpired l expiredKey ;; StartKeyspaceListener l rs'
  end.

(** Expiry as Redis does it: a key whose time has run out is removed
    and its name is published. *)
Definition expire (key : string) (w : World) : World :=
  mkWorld (delete key (redis w)) (user_searches w) (calls w).

(** A logger whose services answer every command. *)
Definition healthy : Logger :=
  mkLogger (mkRedisClient (fun _ => false) (fun _ => false) (fun _ => false))
           (mkSqlDB NoFault).

(** The services at a cold start: nothing cached, nothing logged. *)
Definition cold : World := mkWorld ∅ [] [].

(** The value under [key], a missing key read as the empty string. *)
Definition cached (key : string) (w : World) : string :=
  match redis w !! key with
  | Some (v, _) => v
  | None => EmptyString
  end.

End searchlogger.


(** ** The helper [FlushUser] of the tests ([search_logger_test.go]) *)

Module searchlogger_test.
Import searchlogger.

(** [FlushUser] writes the last search query for a user from Redis to
    the DB. *)
Definition FlushUser (l : Logger) (userID anonID : string) : M (option error) :=
  let key :=
    if (userID =? "")%string then buildRedisKey anonID
    else buildRedisKey userID in
  r <- Get (Redis l) key ;;
  let (query, _) := r in
  if (query =? "")%string then ret None
  else writeSearch l (mkSearchEntry userID query anonID).

End searchlogger_test.

(** ** The HTTP server ([internal/server]) *)

Module server.
Import searchlogger.

Record Server := mkServer { Logger_ : Logger }.

Definition NewServer (logger : Logger) : Server := mkServer logger.

(** What [searchHandler] uses of a request: the method, the form as
    [ParseForm] fills it ([None] when parsing fails; a key has the list
    of its values, as in [url.Values]) and the User-Agent header. *)
Record Request := mkRequest
  { Method : string;
    Form : option (gmap string (list string));
    UserAgent : string }.

(** [r.FormValue(key)]: the first value of the key, or the empty string. *)
Definition FormValue (form : gmap string (list string)) (key : string)
  : string :=
  match form !! key with
  | Some (v :: _) => v
  | _ => EmptyString
  end.

(** What the handler leaves in the [http.ResponseWriter]. *)
Record Response := mkResponse { status : Z; body : string }.

Definition StatusOK : Z := 200.
Definition StatusBadRequest : Z := 400.
Definition StatusMethodNotAllowed : Z := 405.
Definition StatusInternalServerError : Z := 500.

(** [http.Error(w, msg, code)] replies with the code and the message on
    a line. *)
Definition Error (msg : string) (code : Z) : Response :=
  mkResponse code (msg ++ String "010" EmptyString).

Definition searchHandler (s : Server) (r : Request) : M Response :=
  if negb (Method r =? "POST")%string
  then ret (Error "method not allowed" StatusMethodNotAllowed)
  else
    match Form r with
    | None => ret (Error "error parsing form" StatusBadRequest)
    | Some form =>
        let query := FormValue form "q" in
        if (query =? "")%string
        then ret (Error "missing query parameter q" StatusBadRequest)
        else
          let userID := FormValue form "user_id" in
          let userAgent := UserAgent r in
          err <- LogSearch (Logger_ s) userID userAgent query ;;
          match err with
          | Some _ =>
              ret (Error "error logging search" StatusInternalServerError)
          | None => ret (mkResponse StatusOK "Query logged")
          end
    end.

End server.
Import searchlogger.

(** ** What one call does, in closed form

    The definitions below name the pieces of the worlds that the
    functions of the logger produce; the lemmas [writeSearch_run],
    [LogSearch_run] and [onExpired_run] relate them to the code. *)

(** The rows that [writeSearch] adds to the table. *)
Definition written (l : Logger) (entry : SearchEntry) : list Row :=
  match fault (DB l) with
  | NoFault =>
      if (Query entry =? "")%string then []
      else [mkRow (UserID entry) (Query entry) (AnonID entry)]
  | _ => []
  end.

(** The commands that [writeSearch] sends. *)
Definition sqlCalls (l : Logger) (entry : SearchEntry) : list Call :=
  let exec := SqlExec [UserID entry; Query entry; AnonID entry] in
  if (Query entry =? "")%string then []
  else match fault (DB l) with
       | NoFault => [SqlBeginTx; exec; SqlCommit]
       | BeginTxFails => [SqlBeginTx]
       | ExecFails => [SqlBeginTx; exec; SqlRollback]
       | CommitFails => [SqlBeginTx; exec; SqlCommit]
       end.

(** The error that [writeSearch] returns. *)
Definition sqlError (l : Logger) (entry : SearchEntry) : option error :=
  if (Query entry =? "")%string then None
  else match fault (DB l) with
       | NoFault => None
       | BeginTxFails => Some sql_BeginTx_failed
       | ExecFails => Some sql_Exec_failed
       | CommitFails => Some sql_Commit_failed
       end.

(** What [Get] hands to [LogSearch] as [lastQuery]: the error is dropped,
    so a missing key and a failed command both read as the empty string. *)
Definition lastQueryRead (l : Logger) (key : string) (w : World) : string :=
  if getFails (Redis l) key then "" else cached key w.

(** The store after a [Set] command, and the error of the command. *)
Definition store (l : Logger) (key value : string) (expiration : Z)
  (m : gmap string (string * Z)) : gmap string (string * Z) :=
  if setFails (Redis l) key then m else <[key := (value, expiration)]> m.

Definition setError (l : Logger) (key : string) : option RedisError :=
  if setFails (Redis l) key then Some redis_failed else None.

(** The store after a [Del] command. *)
Definition remove (l : Logger) (key : string)
  (m : gmap string (string * Z)) : gmap string (string * Z) :=
  if delFails (Redis l) key then m else delete key m.

(** The world after [LogSearch] for identity [id] when the reset flush
    of [entry] fails. *)
Definition flushFailedWorld (l : Logger) (id : string) (entry : SearchEntry)
  (w : World) : World :=
  mkWorld (redis w) (user_searches w)
          (calls w ++ RedisGet (buildRedisKey id) :: sqlCalls l entry).

(** The world after [LogSearch] for identity [id] and normalized query
    [q] when it reaches the two [Set] commands; [rows] are the rows of
    the reset flush and [cs] its commands. *)
Definition cachedWorld (l : Logger) (id q : string) (rows : list Row)
  (cs : list Call) (w : World) : World :=
  mkWorld (store l (bufferKey id) q (1 * Hour)
             (store l (buildRedisKey id) q (10 * Second) (redis w)))
          (user_searches w ++ rows)
          (calls w ++ RedisGet (buildRedisKey id) :: cs
             ++ [RedisSet (buildRedisKey id) q (10 * Second);
                 RedisSet (bufferKey id) q (1 * Hour)]).

(** The error of [LogSearch] after the two [Set] commands. *)
Definition setsError (l : Logger) (id : string) : option error :=
  match setError l (buildRedisKey id), setError l (bufferKey id) with
  | None, None => None
  | err1, err2 => Some (redis_set_error err1 err2)
  end.

(** The entry that the listener builds for the identity [userID] taken
    from an expired key. *)
Definition expiredEntry (userID query : string) : SearchEntry :=
  if strings.HasPrefix userID "anon"
  then mkSearchEntry "" query userID
  else mkSearchEntry userID query "".

(** The world after the listener has read the buffer of [userID] and
    skipped the message. *)
Definition skippedWorld (userID : string) (w : World) : World :=
  mkWorld (redis w) (user_searches w) (calls w ++ [RedisGet (bufferKey userID)]).

(** The world after the listener has handled the expiry of the head key
    of [userID] with [query] in the buffer. *)
Definition flushedWorld (l : Logger) (userID query : string) (w : World)
  : World :=
  let entry := expiredEntry userID query in
  match sqlError l entry with
  | Some _ =>
      mkWorld (redis w) (user_searches w)
              (calls w ++ RedisGet (bufferKey userID) :: sqlCalls l entry)
  | None =>
      mkWorld (remove l (bufferKey userID) (redis w))
              (user_searches w ++ written l entry)
              (calls w ++ RedisGet (bufferKey userID) :: sqlCalls l entry
                 ++ [RedisDel (bufferKey userID)])
  end.

(** ** The vocabulary of the properties *)

(** A reset as the design states it: the head is there, the new query
    is not a prefix of the head and the head is not a prefix of the new
    query. *)
Definition resetDetected (head normalizedQuery : string) : Prop :=
  head <> ""
  /\ strings.HasPrefix head normalizedQuery = false
  /\ strings.HasPrefix normalizedQuery head = false.

(** Two queries of one burst: one is a prefix of the other. *)
Definition related (a b : string) : Prop :=
  strings.HasPrefix a b = true \/ strings.HasPrefix b a = true.

(** A burst that follows the query [prev]: every query normalizes to a
    non-empty text that extends or contracts the one before it. *)
Fixpoint burst (prev : string) (queries : list string) : Prop :=
  match queries with
  | [] => True
  | query :: rest =>
      normalizeQuery query <> ""
      /\ related prev (normalizeQuery query)
      /\ burst (normalizeQuery query) rest
  end.

(** Successive calls of [LogSearch] by one caller, each with the state
    of the services at the time of the call. *)
Fixpoint submit (userID userAgent : string) (cs : list (Logger * string))
  (w : World) : World :=
  match cs with
  | [] => w
  | (l, query) :: cs' =>
      submit userID userAgent cs' (LogSearch l userID userAgent query w).2
  end.

(** The cache accepts the two writes of [LogSearch] for [id]. *)
Definition writable (l : Logger) (id : string) : Prop :=
  setFails (Redis l) (buildRedisKey id) = false
  /\ setFails (Redis l) (bufferKey id) = false.

Definition isSql (c : Call) : bool :=
  match c with
  | RedisGet _ | RedisSet _ _ _ | RedisDel _ => false
  | _ => true
  end.

(** The key that a Redis command names. *)
Definition keyOf (c : Call) : option string :=
  match c with
  | RedisGet key | RedisSet key _ _ | RedisDel key => Some key
  | _ => None
  end.

(** The row of an entry. *)
Definition rowOf (entry : SearchEntry) : Row :=
  mkRow (UserID entry) (Query entry) (AnonID entry).

(** Exactly one identity column of a row is filled. *)
Definition oneIdentity (r : Row) : Prop :=
  (user_id r <> "" /\ anon_id r = "") \/ (user_id r = "" /\ anon_id r <> "").

(** A logger whose Redis reads fail while everything else works. *)
Definition readsDown : Logger :=
  mkLogger (mkRedisClient (fun _ => true) (fun _ => false) (fun _ => false))
           (mkSqlDB NoFault).

(** A logger whose database cannot commit, and one whose database
    cannot open a transaction. *)
Definition commitDown : Logger :=
  mkLogger (Redis healthy) (mkSqlDB CommitFails).

Definition beginDown : Logger :=
  mkLogger (Redis healthy) (mkSqlDB BeginTxFails).

(** The format of the identifiers that [generateAnonID] makes: "anon",
    then 64 lower-case hexadecimal digits. *)
Definition isHexDigit (c : ascii) : bool :=
  existsb (Ascii.eqb c) fmt.hexDigits.

Fixpoint allHex (s : string) : bool :=
  match s with
  | EmptyString => true
  | String c s' => isHexDigit c && allHex s'
  end.

Definition anonFormat (id : string) : bool :=
  match id with
  | String "a" (String "n" (String "o" (String "n" digits))) =>
      (String.length digits =? 64)%nat && allHex digits
  | _ => false
  end.

(** An ASCII byte that is not white space. *)
Definition plain (c : ascii) : bool :=
  (utf8.byte c <? utf8.RuneSelf)%Z && negb (strings.asciiSpace (utf8.byte c)).

Definition allPlain (s : string) : bool :=
  forallb plain (list_ascii_of_string s).

(** A Go string given by its bytes, and the bytes of a string. *)
Definition ofBytes (l : list nat) : string :=
  string_of_list_ascii (map ascii_of_nat l).

Definition toBytes (s : string) : list nat :=
  map nat_of_ascii (list_ascii_of_string s).

(** ** Running the code in proofs *)

#[local] Arguments buildRedisKey : simpl never.
#[local] Arguments bufferKey : simpl never.
#[local] Arguments generateAnonID : simpl never.
#[local] Arguments normalizeQuery : simpl never.
#[local] Arguments Z.mul : simpl never.

Ltac run :=
  unfold LogSearch, onExpired, writeSearch, BeginTx, ExecContext, Commit,
    Rollback, Get, Set_, Del, send, bind, ret in *;
  simpl in *.

(** ** More vocabulary *)

Import searchlogger_test server.

(** One list of rows begins another: the table only grows. *)
Definition extends (rows rows' : list Row) : Prop :=
  exists added, rows' = (rows ++ added)%list.

(** The event is a message for a head key, or the end of the context. *)
Definition heard (r : Received) : bool :=
  match r with
  | ctxDone => true
  | msg expiredKey => strings.HasPrefix expiredKey "search:last:"
  end.

Definition isDone (r : Received) : bool :=
  match r with ctxDone => true | msg _ => false end.

(** The identity columns that [LogSearch] writes for a caller. *)
Definition attributed (userID userAgent query : string) : Row :=
  mkRow userID query (anonID userID userAgent).

(** The services answer everything that a call of [LogSearch] for the
    identity [id] asks of them. *)
Definition serviceable (l : Logger) (id : string) : Prop :=
  getFails (Redis l) (buildRedisKey id) = false
  /\ writable l id
  /\ fault (DB l) = NoFault.

(** The queries that end a burst in a run of normalized queries that
    follows the query [prev]: the ones after which the next query
    resets. *)
Fixpoint completed (prev : string) (qs : list string) : list string :=
  match qs with
  | [] => []
  | q :: rest => ((if isReset prev q then [prev] else []) ++ completed q rest)%list
  end.

(** * Properties *)

(** ** The models against known values *)

Example constants :
  length sha256._K = 64%nat
  /\ nth 0 sha256._K 0%Z = 0x428a2f98%Z
  /\ nth 63 sha256._K 0%Z = 0xc67178f2%Z
  /\ sha256.h0 sha256.init = 0x6a09e667%Z
  /\ sha256.h7 sha256.init = 0x5be0cd19%Z.
Proof. repeat split; reflexivity. Qed.

Example sum256_empty :
  fmt.hex (sha256.Sum256 "")
  = "e3b0c44298fc1c149afbf4c8996fb92427ae41e4649b934ca495991b7852b855".
Proof. vm_compute. reflexivity. Qed.

Example sum256_abc :
  fmt.hex (sha256.Sum256 "abc")
  = "ba7816bf8f01cfea414140de5dae2223b00361a396177a9cb410ff61f20015ad".
Proof. vm_compute. reflexivity. Qed.

Example sum256_long :
  fmt.hex (sha256.Sum256
    "aaaaaaaaaaaaaaaaaaaaaaaaaaaaaaaaaaaaaaaaaaaaaaaaaaaaaaaaaaaaaaaaaaaaaa")
  = "6bd5e5034855a11241f0dee8fc72850ffd9955b28347a86428b5fa19119f6ad0".
Proof. vm_compute. reflexivity. Qed.

Example trim_ex : strings.TrimSpace "  a b  " = "a b".
Proof. vm_compute. reflexivity. Qed.

(** The two library functions on byte strings, among them white space
    outside ASCII, letters outside ASCII and bytes that are not UTF-8:
    U+00A0 alone; "ÉCOLE" and "école"; "caf" and the byte E9; "a" and the
    byte C3, and "aé"; a word between U+2003, U+3000 and blanks; U+0130;
    U+01C5 and the Kelvin sign; U+10400; a truncated sequence after a
    blank; a surrogate and an overlong encoding; U+FFFD itself. *)
Example normalizeQuery_vectors :
  map (fun b => toBytes (normalizeQuery (ofBytes b)))
    [ [194; 160];
      [195; 137; 67; 79; 76; 69];
      [195; 169; 99; 111; 108; 101];
      [99; 97; 102; 233];
      [97; 195];
      [97; 195; 169];
      [32; 226; 128; 131; 72; 101; 108; 108; 111; 227; 128; 128; 32];
      [196; 176; 115; 116; 97; 110; 98; 117; 108];
      [199; 133; 226; 132; 170];
      [240; 144; 144; 128; 120];
      [97; 98; 99; 32; 226; 128];
      [226; 128; 131; 97; 98; 99; 226; 128; 131];
      [237; 160; 128];
      [192; 128];
      [120; 239; 191; 189; 89];
      [32; 32; 67; 97; 116; 9];
      [225; 154; 128; 32; 194; 133; 83; 116; 114; 97; 195; 159; 101; 32; 206; 163; 206; 145; 206; 163; 226; 128; 175];
      [226; 128; 131; 226; 128];
      [65; 240; 159; 152; 128; 32];
      [128; 128; 128; 128; 128; 32];
      [199; 132; 199; 133; 199; 134; 199; 135; 32; 206; 169; 32; 225; 130; 160; 32; 225; 142; 160; 32; 225; 178; 128; 32; 225; 178; 144; 32; 225; 190; 186; 32; 226; 146; 182; 32; 226; 176; 128; 32; 239; 188; 161] ]
  = [ [];
      [195; 169; 99; 111; 108; 101];
      [195; 169; 99; 111; 108; 101];
      [99; 97; 102; 239; 191; 189];
      [97; 239; 191; 189];
      [97; 195; 169];
      [104; 101; 108; 108; 111];
      [105; 115; 116; 97; 110; 98; 117; 108];
      [199; 134; 107];
      [240; 144; 144; 168; 120];
      [97; 98; 99; 32; 239; 191; 189; 239; 191; 189];
      [97; 98; 99];
      [239; 191; 189; 239; 191; 189; 239; 191; 189];
      [239; 191; 189; 239; 191; 189];
      [120; 239; 191; 189; 121];
      [99; 97; 116];
      [115; 116; 114; 97; 195; 159; 101; 32; 207; 131; 206; 177; 207; 131];
      [239; 191; 189; 239; 191; 189];
      [97; 240; 159; 152; 128];
      [239; 191; 189; 239; 191; 189; 239; 191; 189; 239; 191; 189; 239; 191; 189];
      [199; 134; 199; 134; 199; 134; 199; 137; 32; 207; 137; 32; 226; 180; 128; 32; 234; 173; 176; 32; 225; 178; 128; 32; 225; 131; 144; 32; 225; 189; 176; 32; 226; 147; 144; 32; 226; 176; 176; 32; 239; 189; 129] ].
Proof. vm_compute. reflexivity. Qed.

Example TrimSpace_vectors :
  map (fun b => toBytes (strings.TrimSpace (ofBytes b)))
    [ [194; 160];
      [195; 137; 67; 79; 76; 69];
      [195; 169; 99; 111; 108; 101];
      [99; 97; 102; 233];
      [97; 195];
      [97; 195; 169];
      [32; 226; 128; 131; 72; 101; 108; 108; 111; 227; 128; 128; 32];
      [196; 176; 115; 116; 97; 110; 98; 117; 108];
      [199; 133; 226; 132; 170];
      [240; 144; 144; 128; 120];
      [97; 98; 99; 32; 226; 128];
      [226; 128; 131; 97; 98; 99; 226; 128; 131];
      [237; 160; 128];
      [192; 128];
      [120; 239; 191; 189; 89];
      [32; 32; 67; 97; 116; 9];
      [225; 154; 128; 32; 194; 133; 83; 116; 114; 97; 195; 159; 101; 32; 206; 163; 206; 145; 206; 163; 226; 128; 175];
      [226; 128; 131; 226; 128];
      [65; 240; 159; 152; 128; 32];
      [128; 128; 128; 128; 128; 32];
      [199; 132; 199; 133; 199; 134; 199; 135; 32; 206; 169; 32; 225; 130; 160; 32; 225; 142; 160; 32; 225; 178; 128; 32; 225; 178; 144; 32; 225; 190; 186; 32; 226; 146; 182; 32; 226; 176; 128; 32; 239; 188; 161] ]
  = [ [];
      [195; 137; 67; 79; 76; 69];
      [195; 169; 99; 111; 108; 101];
      [99; 97; 102; 233];
      [97; 195];
      [97; 195; 169];
      [72; 101; 108; 108; 111];
      [196; 176; 115; 116; 97; 110; 98; 117; 108];
      [199; 133; 226; 132; 170];
      [240; 144; 144; 128; 120];
      [97; 98; 99; 32; 226; 128];
      [97; 98; 99];
      [237; 160; 128];
      [192; 128];
      [120; 239; 191; 189; 89];
      [67; 97; 116];
      [83; 116; 114; 97; 195; 159; 101; 32; 206; 163; 206; 145; 206; 163];
      [226; 128];
      [65; 240; 159; 152; 128];
      [128; 128; 128; 128; 128];
      [199; 132; 199; 133; 199; 134; 199; 135; 32; 206; 169; 32; 225; 130; 160; 32; 225; 142; 160; 32; 225; 178; 128; 32; 225; 178; 144; 32; 225; 190; 186; 32; 226; 146; 182; 32; 226; 176; 128; 32; 239; 188; 161] ].
Proof. vm_compute. reflexivity. Qed.


Example test_logged_in :
  let w1 := snd (LogSearch healthy "user123" "" "cat" cold) in
  let w2 := snd (LogSearch healthy "user123" "" "caterpillar" w1) in
  let w3 := snd (LogSearch healthy "user123" "" "dog" w2) in
  user_searches w3 = [mkRow "user123" "caterpillar" ""]
  /\ redis w3 !! buildRedisKey "user123" = Some ("dog", 10 * Second)%Z.
Proof. vm_compute. split; reflexivity. Qed.

(** "alpha", "alphabet", then "beta"; the head key expires and the
    listener runs until its context is done. *)
Example test_reset_then_expiry :
  let user := "test-reset" in
  let w := submit user "TestAgent"
             [(healthy, "alpha"); (healthy, "alphabet"); (healthy, "beta")]
             cold in
  let w' := (StartKeyspaceListener healthy
               [msg (buildRedisKey user); ctxDone; msg (buildRedisKey user)]
               (expire (buildRedisKey user) w)).2 in
  user_searches w = [mkRow user "alphabet" ""]
  /\ user_searches w' = [mkRow user "alphabet" ""; mkRow user "beta" ""]
  /\ redis w' = ∅.
Proof. vm_compute. repeat split; reflexivity. Qed.

(** ** Strings *)

Lemma HasPrefix_refl s : strings.HasPrefix s s = true.
Proof. unfold strings.HasPrefix. induction s; simpl; [done|]. by destruct (ascii_dec a a). Qed.

Lemma HasPrefix_app p s : strings.HasPrefix (p ++ s) p = true.
Proof.
  unfold strings.HasPrefix. induction p as [|c p IH]; simpl.
  - by destruct s.
  - by destruct (ascii_dec c c).
Qed.

Lemma substring_all s : String.substring 0 (String.length s) s = s.
Proof. induction s; simpl; congruence. Qed.

Lemma TrimPrefix_app p s : strings.TrimPrefix (p ++ s) p = s.
Proof.
  unfold strings.TrimPrefix. rewrite HasPrefix_app.
  induction p as [|c p IH]; simpl.
  - rewrite Nat.sub_0_r. apply substring_all.
  - exact IH.
Qed.

Lemma app_inj_l (p s t : string) : p ++ s = p ++ t -> s = t.
Proof. induction p; simpl; intros H; [done|]. injection H. auto. Qed.

Lemma buildRedisKey_inj a b : buildRedisKey a = buildRedisKey b -> a = b.
Proof. apply app_inj_l. Qed.

Lemma bufferKey_inj a b : bufferKey a = bufferKey b -> a = b.
Proof. apply app_inj_l. Qed.

Lemma head_buffer_apart a b : buildRedisKey a <> bufferKey b.
Proof. discriminate. Qed.

Lemma buffer_head_apart a b : bufferKey a <> buildRedisKey b.
Proof. discriminate. Qed.

(** On ASCII text without white space, [TrimSpace] takes neither of
    its two fallbacks and returns the string. *)
Lemma TrimSpace_start_plain l :
  forallb plain l = true -> strings.TrimSpace_start l = l.
Proof.
  intros H. destruct l as [|c l]; [done|].
  assert (Hall : forall x, In x (rev (c :: l)) -> plain x = true).
  { intros x Hx. apply in_rev in Hx. by apply (proj1 (forallb_forall _ _) H). }
  assert (Hc : plain c = true).
  { apply Hall. rewrite <- in_rev. simpl. auto. }
  apply andb_prop in Hc as [Hc1 Hc2]. apply negb_true_iff in Hc2.
  cbn [strings.TrimSpace_start].
  assert (Hge : (utf8.RuneSelf <=? utf8.byte c)%Z = false).
  { apply Z.leb_gt. by apply Z.ltb_lt. }
  rewrite Hge, Hc2.
  destruct (rev (c :: l)) as [|d r] eqn:E.
  { apply (f_equal (@length _)) in E. rewrite length_rev in E. done. }
  assert (Hd : plain d = true) by (apply Hall; simpl; auto).
  apply andb_prop in Hd as [Hd1 Hd2]. apply negb_true_iff in Hd2.
  cbn [strings.TrimSpace_stop].
  assert (Hge' : (utf8.RuneSelf <=? utf8.byte d)%Z = false).
  { apply Z.leb_gt. by apply Z.ltb_lt. }
  rewrite Hge', Hd2, <- E. apply rev_involutive.
Qed.

Lemma TrimSpace_plain s : allPlain s = true -> strings.TrimSpace s = s.
Proof.
  unfold allPlain, strings.TrimSpace. intros H.
  rewrite TrimSpace_start_plain by done.
  apply string_of_list_ascii_of_string.
Qed.

Lemma hexDigit_plain n : plain (fmt.hexDigit n) = true.
Proof.
  unfold fmt.hexDigit.
  assert (H : (Z.to_nat (n mod 16) < 16)%nat).
  { pose proof (Z.mod_pos_bound n 16). lia. }
  revert H. generalize (Z.to_nat (n mod 16)). intros i Hi.
  do 16 (destruct i as [|i]; [reflexivity|]). lia.
Qed.

Lemma hex_plain b : allPlain (fmt.hex b) = true.
Proof.
  unfold allPlain. induction b as [|x b IH]; [done|].
  cbn [fmt.hex list_ascii_of_string forallb].
  by rewrite !hexDigit_plain, IH.
Qed.

Lemma TrimSpace_anon userAgent :
  strings.TrimSpace (generateAnonID userAgent) <> "".
Proof.
  rewrite TrimSpace_plain; [discriminate|].
  change (allPlain (String "a" (String "n" (String "o" (String "n"
            (fmt.hex (sha256.Sum256 userAgent)))))) = true).
  unfold allPlain. cbn [list_ascii_of_string forallb].
  fold (allPlain (fmt.hex (sha256.Sum256 userAgent))).
  by rewrite hex_plain.
Qed.

Lemma generateAnonID_prefix ua :
  strings.HasPrefix (generateAnonID ua) "anon" = true.
Proof. apply HasPrefix_app. Qed.



(** ** The code and its closed forms *)

Lemma writeSearch_run l entry w :
  writeSearch l entry w
  = (sqlError l entry,
     mkWorld (redis w) (user_searches w ++ written l entry)
             (calls w ++ sqlCalls l entry)).
Proof.
  unfold sqlError, sqlCalls, written. run.
  destruct w as [m rows cs]; simpl.
  destruct (Query entry =? "")%string, (fault (DB l)); simpl;
    rewrite ?app_nil_r, <- ?app_assoc; reflexivity.
Qed.

Lemma Get_run c key w :
  Get c key w
  = (if getFails c key then ("", Some redis_failed)
     else match redis w !! key with
          | Some (v, _) => (v, None)
          | None => ("", Some redis_Nil)
          end,
     mkWorld (redis w) (user_searches w) (calls w ++ [RedisGet key])).
Proof.
  run. destruct (getFails c key); [done|].
  by destruct (redis w !! key) as [[]|].
Qed.

Lemma Set_run l key value expiration w :
  Set_ (Redis l) key value expiration w
  = (setError l key,
     mkWorld (store l key value expiration (redis w)) (user_searches w)
             (calls w ++ [RedisSet key value expiration])).
Proof. unfold setError, store. run. by destruct (setFails (Redis l) key). Qed.

Lemma Del_run l key w :
  Del (Redis l) key w
  = (if delFails (Redis l) key then Some redis_failed else None,
     mkWorld (remove l key (redis w)) (user_searches w)
             (calls w ++ [RedisDel key])).
Proof. unfold remove. run. by destruct (delFails (Redis l) key). Qed.

Lemma LogSearch_run l userID userAgent query w :
  let q := normalizeQuery query in
  let id := idForRedis userID userAgent in
  let h := lastQueryRead l (buildRedisKey id) w in
  let entry := mkSearchEntry userID h (anonID userID userAgent) in
  q <> "" ->
  LogSearch l userID userAgent query w
  = if isReset h q
    then match sqlError l entry with
         | Some e => (Some e, flushFailedWorld l id entry w)
         | None => (setsError l id,
                    cachedWorld l id q (written l entry) (sqlCalls l entry) w)
         end
    else (setsError l id, cachedWorld l id q [] [] w).
Proof.
  intros q id h entry Hq. unfold LogSearch. fold q id.
  destruct (String.eqb_spec q ""); [done|].
  unfold bind at 1. rewrite Get_run. cbv zeta.
  set (r := if getFails (Redis l) (buildRedisKey id) then _ else _).
  assert (Hr : r.1 = h).
  { unfold r, h, lastQueryRead, cached.
    destruct (getFails (Redis l) (buildRedisKey id)); [done|].
    by destruct (redis w !! buildRedisKey id) as [[]|]. }
  destruct r as [lastQuery err]. simpl in Hr. subst lastQuery. fold entry.
  unfold setsError, flushFailedWorld, cachedWorld, bind, ret.
  destruct (isReset h q).
  - rewrite writeSearch_run. unfold sqlError, written.
    destruct (Query entry =? "")%string, (fault (DB l)); simpl;
      rewrite ?Set_run; simpl;
      rewrite <- ?app_assoc, ?app_nil_r; simpl; try reflexivity;
      by destruct (setError l (buildRedisKey id)), (setError l (bufferKey id)).
  - rewrite !Set_run. simpl. rewrite <- !app_assoc, app_nil_r. simpl.
    by destruct (setError l (buildRedisKey id)), (setError l (bufferKey id)).
Qed.

(** ** The listener *)

Lemma StartKeyspaceListener_msg l expiredKey rs w :
  StartKeyspaceListener l (msg expiredKey :: rs) w
  = StartKeyspaceListener l rs (onExpired l expiredKey w).2.
Proof.
  cbn [StartKeyspaceListener]. unfold bind.
  by destruct (onExpired l expiredKey w).
Qed.

Lemma StartKeyspaceListener_done l rs w :
  StartKeyspaceListener l (ctxDone :: rs) w = (tt, w).
Proof. reflexivity. Qed.

Lemma onExpired_other l expiredKey w :
  strings.HasPrefix expiredKey "search:last:" = false ->
  onExpired l expiredKey w = (tt, w).
Proof. unfold onExpired. by intros ->. Qed.

Lemma onExpired_run l userID w :
  onExpired l (buildRedisKey userID) w
  = (tt,
     if getFails (Redis l) (bufferKey userID) then skippedWorld userID w
     else match redis w !! bufferKey userID with
          | None => skippedWorld userID w
          | Some (query, _) => flushedWorld l userID query w
          end).
Proof.
  unfold onExpired, buildRedisKey.
  rewrite HasPrefix_app, TrimPrefix_app.
  change (negb true) with false. cbv iota.
  unfold bind at 1. cbv beta. rewrite Get_run. unfold skippedWorld, flushedWorld.
  destruct (getFails (Redis l) (bufferKey userID)); [done|].
  destruct (redis w !! bufferKey userID) as [[query ttl]|]; [|done].
  fold (expiredEntry userID query). unfold bind, ret.
  rewrite writeSearch_run.
  unfold sqlError, written.
  destruct (Query (expiredEntry userID query) =? "")%string, (fault (DB l));
    simpl; rewrite ?Del_run; simpl;
    rewrite <- ?app_assoc, ?app_nil_r; reflexivity.
Qed.

(** ** Auxiliary facts *)

Lemma isReset_spec h q : isReset h q = true <-> resetDetected h q.
Proof.
  unfold isReset, resetDetected.
  destruct (String.eqb_spec h ""), (strings.HasPrefix q h),
    (strings.HasPrefix h q); simpl; intuition congruence.
Qed.

Lemma related_no_reset h q : related h q -> isReset h q = false.
Proof.
  intros Hr. destruct (isReset h q) eqn:E; [|done].
  apply isReset_spec in E as (_ & H1 & H2). destruct Hr; congruence.
Qed.

Lemma isReset_empty q : isReset "" q = false.
Proof. reflexivity. Qed.

Lemma resetDetected_neq h q : resetDetected h q -> h <> q.
Proof. intros (_ & H & _) ->. by rewrite HasPrefix_refl in H. Qed.

Lemma store_lookup l key value expiration m :
  setFails (Redis l) key = false ->
  store l key value expiration m !! key = Some (value, expiration).
Proof. unfold store. intros ->. apply lookup_insert_eq. Qed.

Lemma store_lookup_ne l key key' value expiration m :
  key <> key' -> store l key value expiration m !! key' = m !! key'.
Proof.
  unfold store. intros Hne. destruct (setFails (Redis l) key); [done|].
  by apply lookup_insert_ne.
Qed.

Lemma store_fails l key value expiration m :
  setFails (Redis l) key = true -> store l key value expiration m = m.
Proof. unfold store. by intros ->. Qed.

Lemma LogSearch_empty l userID userAgent query w :
  normalizeQuery query = "" -> LogSearch l userID userAgent query w = (None, w).
Proof. unfold LogSearch. by intros ->. Qed.

Lemma lastQueryRead_ok l key w :
  getFails (Redis l) key = false -> lastQueryRead l key w = cached key w.
Proof. unfold lastQueryRead. by intros ->. Qed.

Lemma lastQueryRead_down l key w :
  getFails (Redis l) key = true -> lastQueryRead l key w = "".
Proof. unfold lastQueryRead. by intros ->. Qed.

(** A resolved identity is never blank. *)
Lemma idForRedis_not_blank userID userAgent :
  strings.TrimSpace (idForRedis userID userAgent) <> "".
Proof.
  unfold idForRedis, anonID, isAnon.
  destruct (String.eqb_spec (strings.TrimSpace userID) ""); [|done].
  apply TrimSpace_anon.
Qed.

Lemma idForRedis_nonempty userID userAgent : idForRedis userID userAgent <> "".
Proof.
  intros H. apply (idForRedis_not_blank userID userAgent). by rewrite H.
Qed.

Lemma app_one_neq {A} (xs : list A) x : (xs ++ [x])%list <> xs.
Proof.
  intros H. apply (f_equal length) in H. rewrite length_app in H.
  simpl in H. lia.
Qed.

Lemma HasPrefix_split s p :
  strings.HasPrefix s p = true -> exists t, s = p ++ t.
Proof.
  unfold strings.HasPrefix. revert s.
  induction p as [|c p IH]; intros s H; simpl in *; [exists s; reflexivity|].
  destruct s as [|c' s]; [done|]. simpl in H.
  revert H. destruct (ascii_dec c c') as [->|]; [intros H|done].
  destruct (IH s H) as [t ->]. exists t. reflexivity.
Qed.

Lemma head_namespace expiredKey :
  strings.HasPrefix expiredKey "search:last:" = true
  <-> exists userID, expiredKey = buildRedisKey userID.
Proof.
  split; [apply HasPrefix_split|intros [userID ->]; apply HasPrefix_app].
Qed.

(** ** The footprint of [LogSearch] *)

Lemma sqlCalls_isSql l entry c : In c (sqlCalls l entry) -> isSql c = true.
Proof.
  unfold sqlCalls. destruct (Query entry =? "")%string; [done|].
  destruct (fault (DB l)); simpl; intuition (subst; done).
Qed.

Lemma LogSearch_frame l userID userAgent query w key :
  let id := idForRedis userID userAgent in
  key <> buildRedisKey id -> key <> bufferKey id ->
  redis (LogSearch l userID userAgent query w).2 !! key = redis w !! key.
Proof.
  intros id Hhead Hbuffer.
  destruct (String.eqb_spec (normalizeQuery query) "") as [He|Hq].
  { by rewrite LogSearch_empty. }
  rewrite LogSearch_run by done. fold id.
  assert (Hc : forall rows cs,
             redis (cachedWorld l id (normalizeQuery query) rows cs w) !! key
             = redis w !! key).
  { intros. unfold cachedWorld. cbn [redis].
    by rewrite !store_lookup_ne. }
  destruct (isReset _ _); [destruct (sqlError l _)|]; cbn [snd]; by rewrite ?Hc.
Qed.

Lemma LogSearch_calls l userID userAgent query w :
  let id := idForRedis userID userAgent in
  exists cs,
    calls (LogSearch l userID userAgent query w).2 = (calls w ++ cs)%list
    /\ (normalizeQuery query <> "" ->
          exists cs', cs = RedisGet (buildRedisKey id) :: cs')
    /\ forall c, In c cs ->
         keyOf c = Some (buildRedisKey id) \/ keyOf c = Some (bufferKey id)
         \/ isSql c = true.
Proof.
  intros id.
  destruct (String.eqb_spec (normalizeQuery query) "") as [He|Hq].
  { rewrite LogSearch_empty by done. exists []. rewrite app_nil_r.
    repeat split; [done|by intros ? []]. }
  rewrite LogSearch_run by done. fold id.
  destruct (isReset _ _); [destruct (sqlError l _)|]; cbn [snd];
    unfold flushFailedWorld, cachedWorld; cbn [calls];
    (eexists; split; [reflexivity|split; [by eexists|]]);
    intros c [<-|Hc]; try (by left);
    repeat (apply in_app_or in Hc as [Hc|Hc]);
    try (right; right; eapply sqlCalls_isSql; eassumption);
    simpl in Hc; intuition (subst; simpl; auto).
Qed.

Lemma LogSearch_added l userID userAgent query w :
  let id := idForRedis userID userAgent in
  exists rows,
    user_searches (LogSearch l userID userAgent query w).2
    = (user_searches w ++ rows)%list
    /\ forall r, In r rows ->
         user_id r = userID /\ anon_id r = anonID userID userAgent
         /\ search_text r = lastQueryRead l (buildRedisKey id) w
         /\ search_text r <> normalizeQuery query.
Proof.
  intros id.
  destruct (String.eqb_spec (normalizeQuery query) "") as [He|Hq].
  { rewrite LogSearch_empty by done. exists []. rewrite app_nil_r.
    split; [done|by intros ? []]. }
  rewrite LogSearch_run by done. fold id.
  destruct (isReset _ _) eqn:Hreset;
    [destruct (sqlError l _)|]; cbn [snd];
    unfold flushFailedWorld, cachedWorld; cbn [user_searches].
  - exists []. rewrite app_nil_r. split; [done|by intros ? []].
  - eexists. split; [reflexivity|]. intros r. unfold written.
    destruct (fault (DB l)); try done.
    destruct (_ =? _)%string; [done|]. intros [<-|[]]. simpl.
    repeat split. apply isReset_spec in Hreset.
    by apply resetDetected_neq.
  - exists []. split; [done|by intros ? []].
Qed.

(** ** One step of a burst, and the two ways a burst ends *)

Lemma LogSearch_extend l userID userAgent query w :
  let q := normalizeQuery query in
  let id := idForRedis userID userAgent in
  let w' := (LogSearch l userID userAgent query w).2 in
  q <> "" -> related (cached (buildRedisKey id) w) q -> writable l id ->
  user_searches w' = user_searches w
  /\ filter isSql (calls w') = filter isSql (calls w)
  /\ redis w' !! buildRedisKey id = Some (q, (10 * Second)%Z)
  /\ redis w' !! bufferKey id = Some (q, (1 * Hour)%Z).
Proof.
  intros q id w' Hq Hrel [Hhead Hbuffer]. subst w'.
  rewrite LogSearch_run by done. fold q id.
  assert (Hno : isReset (lastQueryRead l (buildRedisKey id) w) q = false).
  { unfold lastQueryRead. destruct (getFails _ _); [done|].
    by apply related_no_reset. }
  rewrite Hno. unfold cachedWorld. cbn [snd user_searches calls redis].
  split; [by rewrite app_nil_r|]. split.
  - rewrite filter_app. simpl. by rewrite app_nil_r.
  - split; [rewrite store_lookup_ne by apply buffer_head_apart|];
      by apply store_lookup.
Qed.

Lemma cached_lookup key w v ttl :
  redis w !! key = Some (v, ttl) -> cached key w = v.
Proof. unfold cached. by intros ->. Qed.

Lemma LogSearch_reset_row l userID userAgent query w :
  let q := normalizeQuery query in
  let id := idForRedis userID userAgent in
  let h := cached (buildRedisKey id) w in
  q <> "" -> getFails (Redis l) (buildRedisKey id) = false ->
  fault (DB l) = NoFault -> resetDetected h q ->
  user_searches (LogSearch l userID userAgent query w).2
  = (user_searches w ++ [mkRow userID h (anonID userID userAgent)])%list.
Proof.
  intros q id h Hq Hget Hdb Hreset.
  rewrite LogSearch_run by done. fold q id.
  rewrite lastQueryRead_ok by done. fold h.
  assert (Hh : (h =? "")%string = false)
    by (apply String.eqb_neq; apply Hreset).
  apply isReset_spec in Hreset. rewrite Hreset.
  unfold sqlError, written. cbn [Query UserID AnonID].
  by rewrite Hh, Hdb.
Qed.

Lemma onExpired_row l userID query ttl w :
  redis w !! bufferKey userID = Some (query, ttl) -> query <> "" ->
  getFails (Redis l) (bufferKey userID) = false -> fault (DB l) = NoFault ->
  let w' := (onExpired l (buildRedisKey userID) w).2 in
  user_searches w'
  = (user_searches w ++ [rowOf (expiredEntry userID query)])%list
  /\ redis w' = remove l (bufferKey userID) (redis w)
  /\ calls w'
     = (calls w ++
         [RedisGet (bufferKey userID); SqlBeginTx;
          SqlExec [UserID (expiredEntry userID query); query;
                   AnonID (expiredEntry userID query)];
          SqlCommit; RedisDel (bufferKey userID)])%list.
Proof.
  intros Hlook Hq Hget Hdb w'. subst w'.
  rewrite onExpired_run, Hget, Hlook. cbn [snd].
  assert (HQ : Query (expiredEntry userID query) = query).
  { unfold expiredEntry. by destruct (strings.HasPrefix _ _). }
  unfold flushedWorld, sqlError, written, sqlCalls, rowOf. rewrite HQ.
  apply String.eqb_neq in Hq. by rewrite Hq, Hdb.
Qed.

(** ** The format of anonymous identifiers *)

Lemma hexDigit_isHex n : isHexDigit (fmt.hexDigit n) = true.
Proof.
  unfold fmt.hexDigit.
  assert (H : (Z.to_nat (n mod 16) < 16)%nat).
  { pose proof (Z.mod_pos_bound n 16). lia. }
  revert H. generalize (Z.to_nat (n mod 16)). intros i Hi.
  do 16 (destruct i as [|i]; [reflexivity|]). lia.
Qed.

Lemma hex_allHex b : allHex (fmt.hex b) = true.
Proof.
  induction b as [|x b IH]; [done|]. simpl.
  by rewrite !hexDigit_isHex, IH.
Qed.

Lemma hex_length b : String.length (fmt.hex b) = (2 * length b)%nat.
Proof. induction b as [|x b IH]; [done|]. simpl. rewrite IH. lia. Qed.

Lemma Sum256_length s : length (sha256.Sum256 s) = 32%nat.
Proof. reflexivity. Qed.

Lemma generateAnonID_format userAgent :
  anonFormat (generateAnonID userAgent) = true.
Proof.
  change (anonFormat (String "a" (String "n" (String "o" (String "n"
            (fmt.hex (sha256.Sum256 userAgent)))))) = true).
  unfold anonFormat. cbv beta iota.
  by rewrite hex_length, Sum256_length, hex_allHex.
Qed.

(** Whatever has the format is classified as anonymous by the listener. *)
Lemma anonFormat_prefix id :
  anonFormat id = true -> strings.HasPrefix id "anon" = true.
Proof.
  unfold anonFormat, strings.HasPrefix.
  do 4 (destruct id as [|[[] [] [] [] [] [] [] []] id]; try done).
  by destruct id.
Qed.

(** ** Which rows have one identity *)

Lemma LogSearch_oneIdentity l userID userAgent query w r :
  userID = "" \/ strings.TrimSpace userID <> "" ->
  In r (skipn (length (user_searches w))
          (user_searches (LogSearch l userID userAgent query w).2)) ->
  oneIdentity r.
Proof.
  intros Hu.
  destruct (LogSearch_added l userID userAgent query w)
    as (rows & -> & Hrow).
  rewrite skipn_app, Nat.sub_diag, skipn_all. simpl.
  intros (Hid & Han & _)%Hrow. unfold oneIdentity. rewrite Hid, Han.
  unfold anonID, isAnon. destruct Hu as [->|Hu].
  - right. split; [done|]. simpl. discriminate.
  - left. destruct (String.eqb_spec (strings.TrimSpace userID) ""); [done|].
    split; [|done]. intros ->. by apply Hu.
Qed.

Lemma expiredEntry_oneIdentity userID query :
  userID <> "" -> oneIdentity (rowOf (expiredEntry userID query)).
Proof.
  intros Hu. unfold oneIdentity, rowOf, expiredEntry.
  destruct (strings.HasPrefix userID "anon"); simpl; tauto.
Qed.

(** ** The reset flush of [LogSearch] *)

(** C1.  For a call of [LogSearch] whose query normalizes to a non-empty
    [q], with [h] the head value that the cache holds for the resolved
    identity (a missing key read as the empty string) and the head read
    answered: a transaction is opened if and only if [h] is non-empty,
    [q] is not a prefix of [h] and [h] is not a prefix of [q].  With the
    database in order, a row is written under that same condition; the
    row carries [h], which differs from [q], and is committed before the
    cache is written; and when the cache takes the head write, [q] is
    the head value afterwards. *)
Theorem LogSearch_reset_flush l userID userAgent query w :
  let q := normalizeQuery query in
  let id := idForRedis userID userAgent in
  let h := cached (buildRedisKey id) w in
  let w' := (LogSearch l userID userAgent query w).2 in
  q <> "" ->
  getFails (Redis l) (buildRedisKey id) = false ->
  (exists cs,
     calls w' = (calls w ++ cs)%list
     /\ (In SqlBeginTx cs <-> resetDetected h q))
  /\ (fault (DB l) = NoFault ->
        (user_searches w' <> user_searches w <-> resetDetected h q)
        /\ (resetDetected h q ->
              h <> q
              /\ user_searches w'
                 = (user_searches w
                    ++ [mkRow userID h (anonID userID userAgent)])%list
              /\ calls w'
                 = (calls w ++
                     [RedisGet (buildRedisKey id);
                      SqlBeginTx;
                      SqlExec [userID; h; anonID userID userAgent];
                      SqlCommit;
                      RedisSet (buildRedisKey id) q (10 * Second);
                      RedisSet (bufferKey id) q (1 * Hour)])%list)
        /\ (setFails (Redis l) (buildRedisKey id) = false ->
              redis w' !! buildRedisKey id = Some (q, (10 * Second)%Z))).
Proof.
  intros q id h w' Hq Hget. subst w'.
  rewrite LogSearch_run by done. fold q id.
  rewrite lastQueryRead_ok by done. fold h.
  unfold sqlError, written, sqlCalls. cbn [Query UserID AnonID].
  destruct (isReset h q) eqn:Hreset.
  - apply isReset_spec in Hreset as Hspec.
    assert (Hh : (h =? "")%string = false)
      by (apply String.eqb_neq; apply Hspec).
    unfold flushFailedWorld, cachedWorld, sqlCalls.
    cbn [Query UserID AnonID]. rewrite !Hh. split.
    + destruct (fault (DB l)); cbn [snd calls];
        (eexists; split; [reflexivity|]); (split; [done|]);
        intros _; simpl; auto.
    + intros ->. cbn [snd cachedWorld user_searches calls redis].
      split; [|split].
      * split; [done|]. intros _. apply app_one_neq.
      * intros _. split; [by apply resetDetected_neq|done].
      * intros Hset.
        rewrite store_lookup_ne by apply buffer_head_apart.
        by apply store_lookup.
  - assert (Hno : ~ resetDetected h q).
    { intros H. apply isReset_spec in H. congruence. }
    cbn [snd cachedWorld user_searches calls redis]. rewrite app_nil_r.
    split.
    + eexists. split; [reflexivity|]. split; [|done].
      simpl. intuition discriminate.
    + intros _. split; [|split].
      * split; [done|]. intros H. by destruct Hno.
      * intros H. by destruct Hno.
      * intros Hset.
        rewrite store_lookup_ne by apply buffer_head_apart.
        by apply store_lookup.
Qed.

(** The burst of the design: "cat", "caterpillar", then "dog". *)
Lemma LogSearch_reset_flush_witness :
  let w := submit "user123" "" [(healthy, "cat"); (healthy, "Caterpillar ")] cold in
  let w' := (LogSearch healthy "user123" "" "dog" w).2 in
  normalizeQuery "dog" <> ""
  /\ user_searches w' = [mkRow "user123" "caterpillar" ""]
  /\ redis w' !! buildRedisKey "user123" = Some ("dog", (10 * Second)%Z).
Proof.
  intros w w'.
  assert (Hq : normalizeQuery "dog" <> "") by (vm_compute; discriminate).
  destruct (LogSearch_reset_flush healthy "user123" "" "dog" w Hq eq_refl)
    as (_ & Hdb).
  destruct (Hdb eq_refl) as (_ & Hrow & Hhead).
  split; [exact Hq|]. split.
  - apply Hrow. vm_compute. repeat split; discriminate.
  - apply Hhead. reflexivity.
Defined.

(** C6.  When a reset is detected and the write of the previous head
    value fails, [LogSearch] returns the error and leaves the cache and
    the table as they were; a second call with the same query, whose
    head read answers, detects the same reset and opens a transaction for
    the same entry, which a database in order commits. *)
Theorem LogSearch_flush_failure l l' userID userAgent query w :
  let q := normalizeQuery query in
  let id := idForRedis userID userAgent in
  let h := cached (buildRedisKey id) w in
  let r := LogSearch l userID userAgent query w in
  let r' := LogSearch l' userID userAgent query r.2 in
  q <> "" ->
  getFails (Redis l) (buildRedisKey id) = false ->
  resetDetected h q ->
  fault (DB l) <> NoFault ->
  (exists e, r.1 = Some e /\ forall err1 err2, e <> redis_set_error err1 err2)
  /\ redis r.2 = redis w
  /\ user_searches r.2 = user_searches w
  /\ (forall c, In c (calls r.2) -> In c (calls w) \/ keyOf c = Some (buildRedisKey id) \/ isSql c = true)
  /\ (getFails (Redis l') (buildRedisKey id) = false ->
        (exists cs, calls r'.2
           = (calls r.2 ++ RedisGet (buildRedisKey id) :: SqlBeginTx :: cs)%list)
        /\ (fault (DB l') = NoFault ->
              r'.1 = setsError l' id
              /\ user_searches r'.2
                 = (user_searches w
                    ++ [mkRow userID h (anonID userID userAgent)])%list)
        /\ (fault (DB l') <> NoFault ->
              redis r'.2 = redis w /\ user_searches r'.2 = user_searches w)).
Proof.
  intros q id h r r' Hq Hget Hreset Hdb.
  assert (Hh : (h =? "")%string = false)
    by (apply String.eqb_neq; apply Hreset).
  apply isReset_spec in Hreset.
  assert (Hr : r = (sqlError l (mkSearchEntry userID h (anonID userID userAgent)),
                    flushFailedWorld l id
                      (mkSearchEntry userID h (anonID userID userAgent)) w)).
  { subst r. rewrite LogSearch_run by done. fold q id.
    rewrite lastQueryRead_ok by done. fold h. rewrite Hreset.
    unfold sqlError. cbn [Query]. rewrite Hh.
    by destruct (fault (DB l)). }
  assert (Hcached : cached (buildRedisKey id) r.2 = h) by (by rewrite Hr).
  split; [|split; [|split; [|split]]].
  - rewrite Hr. unfold sqlError. cbn [Query fst]. rewrite Hh.
    destruct (fault (DB l)); [done|eexists; split; [done|done]..].
  - by rewrite Hr.
  - by rewrite Hr.
  - rewrite Hr. cbn [snd flushFailedWorld calls]. intros c Hc.
    apply in_app_or in Hc as [Hc|[<-|Hc]]; [by left|by right; left|].
    right; right. unfold sqlCalls in Hc. cbn [Query UserID AnonID] in Hc.
    rewrite Hh in Hc.
    destruct (fault (DB l)); simpl in Hc; intuition (subst; done).
  - intros Hget'. subst r'.
    rewrite LogSearch_run by done. fold q id.
    rewrite lastQueryRead_ok by done. rewrite Hcached, Hreset.
    rewrite Hr. unfold flushFailedWorld, cachedWorld.
    cbn [snd user_searches redis calls].
    unfold sqlError, written. cbn [Query UserID AnonID]. rewrite Hh.
    assert (Hcs : exists cs,
               sqlCalls l' (mkSearchEntry userID h (anonID userID userAgent))
               = SqlBeginTx :: cs).
    { unfold sqlCalls. cbn [Query]. rewrite Hh.
      destruct (fault (DB l')); eexists; reflexivity. }
    destruct Hcs as [cs ->].
    destruct (fault (DB l')); (split; [|split]); try done;
      cbn [snd fst calls]; eexists; simpl; reflexivity.
Qed.

(** A failed commit of "caterpillar", then the same call again. *)
Lemma LogSearch_flush_failure_witness :
  let w := submit "user123" "" [(healthy, "cat"); (healthy, "caterpillar")] cold in
  let r := LogSearch commitDown "user123" "" "dog" w in
  let r' := LogSearch healthy "user123" "" "dog" r.2 in
  resetDetected (cached (buildRedisKey "user123") w) (normalizeQuery "dog")
  /\ r.1 = Some sql_Commit_failed
  /\ redis r.2 = redis w
  /\ user_searches r'.2 = [mkRow "user123" "caterpillar" ""].
Proof.
  intros w r r'.
  assert (Hq : normalizeQuery "dog" <> "") by (vm_compute; discriminate).
  assert (Hreset : resetDetected (cached (buildRedisKey "user123") w)
                     (normalizeQuery "dog"))
    by (vm_compute; repeat split; discriminate).
  assert (Hdb : fault (DB commitDown) <> NoFault) by discriminate.
  destruct (LogSearch_flush_failure commitDown healthy "user123" "" "dog" w
              Hq eq_refl Hreset Hdb) as (_ & Hredis & _ & _ & Hretry).
  split; [exact Hreset|]. split; [reflexivity|]. split; [exact Hredis|].
  destruct (Hretry eq_refl) as (_ & Hrow & _).
  apply (Hrow eq_refl).
Defined.

(** ** Empty input *)

(** C8.  A query that normalizes to the empty string makes [LogSearch]
    return [nil] with the world as it was: no command is sent to Redis
    or to the database.  [writeSearch] on an entry with an empty query
    returns [nil] with the world as it was.  And every row that
    [writeSearch], [LogSearch] or the listener adds to the table has a
    non-empty text. *)
Theorem empty_input_is_noop l userID userAgent query entry expiredKey w :
  (normalizeQuery query = "" ->
     LogSearch l userID userAgent query w = (None, w))
  /\ (Query entry = "" -> writeSearch l entry w = (None, w))
  /\ (forall w',
        w' = (writeSearch l entry w).2
        \/ w' = (LogSearch l userID userAgent query w).2
        \/ w' = (onExpired l expiredKey w).2 ->
        exists rows,
          user_searches w' = (user_searches w ++ rows)%list
          /\ forall r, In r rows -> search_text r <> "").
Proof.
  assert (Hwritten : forall e r, In r (written l e) -> search_text r <> "").
  { intros e r. unfold written.
    destruct (fault (DB l)); try done.
    destruct (String.eqb_spec (Query e) ""); [done|].
    by intros [<-|[]]. }
  split; [apply LogSearch_empty|]. split.
  - intros He. rewrite writeSearch_run.
    unfold sqlError, sqlCalls, written. rewrite He. simpl.
    destruct (fault (DB l)), w; simpl; by rewrite !app_nil_r.
  - intros w' [->|[->| ->]].
    + rewrite writeSearch_run. eexists. split; [reflexivity|apply Hwritten].
    + destruct (String.eqb_spec (normalizeQuery query) "") as [He|Hq].
      { rewrite LogSearch_empty by done. exists []. by rewrite app_nil_r. }
      rewrite LogSearch_run by done.
      destruct (isReset _ _).
      * destruct (sqlError l _) eqn:He.
        -- exists []. by rewrite app_nil_r.
        -- eexists. split; [reflexivity|apply Hwritten].
      * exists []. split; [reflexivity|by intros ? []].
    + destruct (strings.HasPrefix expiredKey "search:last:") eqn:Hp.
      2:{ rewrite onExpired_other by done. exists []. by rewrite app_nil_r. }
      apply head_namespace in Hp as [id ->]. rewrite onExpired_run.
      cbn [snd]. unfold skippedWorld, flushedWorld.
      destruct (getFails _ _); [exists []; by rewrite app_nil_r|].
      destruct (redis w !! bufferKey id) as [[v t]|];
        [|exists []; by rewrite app_nil_r].
      destruct (sqlError l _); [exists []; by rewrite app_nil_r|].
      eexists. split; [reflexivity|apply Hwritten].
Qed.

(** Blank input from a signed-in user, and an entry without a query. *)
Lemma empty_input_is_noop_witness :
  normalizeQuery "   " = ""
  /\ LogSearch healthy "test-empty" "TestAgent" "   " cold = (None, cold)
  /\ writeSearch healthy (mkSearchEntry "test-empty-query" "" "") cold
     = (None, cold).
Proof.
  destruct (empty_input_is_noop healthy "test-empty" "TestAgent" "   "
              (mkSearchEntry "test-empty-query" "" "") "" cold)
    as (Hlog & Hwrite & _).
  split; [reflexivity|]. split; [apply Hlog|apply Hwrite]; reflexivity.
Defined.

(** ** Identities *)

(** C10.  [LogSearch] trims the user identifier to decide between the
    anonymous and the signed-in path only.  A blank identifier resolves
    to the anonymous identifier of the user agent, and the cache is read
    under that key; any other identifier is the identity as it stands,
    white space included, and the cache is read under the key of the
    untrimmed string.  Two identifiers that are not blank and differ,
    be it in surrounding white space alone, have different keys, and a
    call for one leaves the head and the buffer of the other alone. *)
Theorem identity_resolution l userID userAgent query w :
  let w' := (LogSearch l userID userAgent query w).2 in
  normalizeQuery query <> "" ->
  (strings.TrimSpace userID = "" ->
     idForRedis userID userAgent = generateAnonID userAgent
     /\ exists cs,
          calls w'
          = (calls w
             ++ RedisGet (buildRedisKey (generateAnonID userAgent)) :: cs)%list)
  /\ (strings.TrimSpace userID <> "" ->
        idForRedis userID userAgent = userID
        /\ exists cs,
             calls w' = (calls w ++ RedisGet (buildRedisKey userID) :: cs)%list)
  /\ (forall userID',
        strings.TrimSpace userID <> "" ->
        strings.TrimSpace userID' <> "" ->
        userID <> userID' ->
        idForRedis userID userAgent <> idForRedis userID' userAgent
        /\ buildRedisKey (idForRedis userID userAgent)
           <> buildRedisKey (idForRedis userID' userAgent)
        /\ redis w' !! buildRedisKey userID' = redis w !! buildRedisKey userID'
        /\ redis w' !! bufferKey userID' = redis w !! bufferKey userID').
Proof.
  intros w' Hq.
  destruct (LogSearch_calls l userID userAgent query w)
    as (cs & Hcalls & Hfirst & _).
  destruct (Hfirst Hq) as [cs' ->].
  assert (Hanon : strings.TrimSpace userID = "" ->
                  idForRedis userID userAgent = generateAnonID userAgent).
  { intros H. unfold idForRedis, anonID, isAnon. by rewrite H. }
  assert (Hid : forall u, strings.TrimSpace u <> "" ->
                          idForRedis u userAgent = u).
  { intros u H. unfold idForRedis, isAnon.
    by destruct (String.eqb_spec (strings.TrimSpace u) ""). }
  split; [|split].
  - intros H. split; [by apply Hanon|].
    exists cs'. subst w'. by rewrite Hcalls, (Hanon H).
  - intros H. split; [by apply Hid|].
    exists cs'. subst w'. by rewrite Hcalls, (Hid _ H).
  - intros userID' H H' Hne. rewrite !Hid by done.
    split; [done|]. split; [by intros E%buildRedisKey_inj|].
    subst w'. split; apply LogSearch_frame; rewrite (Hid _ H);
      first [by intros E%buildRedisKey_inj | by intros E%bufferKey_inj
            | apply head_buffer_apart | apply buffer_head_apart].
Qed.

(** A blank identifier, and "bob" with and without a leading space. *)
Lemma identity_resolution_witness :
  idForRedis "  " "TestAgent"
  = "anon81d87514fb97bb2a799c33d42140585357d1ffb69f327307c12cc41c2a431295"
  /\ idForRedis " bob" "TestAgent" = " bob"
  /\ buildRedisKey (idForRedis " bob" "TestAgent")
     <> buildRedisKey (idForRedis "bob" "TestAgent").
Proof.
  assert (Hq : normalizeQuery "cat" <> "") by (vm_compute; discriminate).
  pose proof (identity_resolution healthy "  " "TestAgent" "cat" cold Hq)
    as (Hblank & _ & _).
  pose proof (identity_resolution healthy " bob" "TestAgent" "cat" cold Hq)
    as (_ & Hbob & Hapart).
  destruct (Hblank eq_refl) as [-> _].
  assert (Hbob' : strings.TrimSpace " bob" <> "") by (vm_compute; discriminate).
  assert (Hbob'' : strings.TrimSpace "bob" <> "") by (vm_compute; discriminate).
  split; [vm_compute; reflexivity|].
  split; [apply (Hbob Hbob')|].
  apply (Hapart "bob" Hbob' Hbob''). discriminate.
Defined.

(** C9.  For two resolved identities that differ, a call of [LogSearch]
    for the first leaves the head and the buffer of the second as they
    were, names in its Redis commands no key but the head and the buffer
    of the first, and adds no row but rows that carry the first identity
    in one of the identity columns and the second in none. *)
Theorem LogSearch_isolation l userID userAgent query userID' userAgent' w :
  let A := idForRedis userID userAgent in
  let B := idForRedis userID' userAgent' in
  let w' := (LogSearch l userID userAgent query w).2 in
  A <> B ->
  redis w' !! buildRedisKey B = redis w !! buildRedisKey B
  /\ redis w' !! bufferKey B = redis w !! bufferKey B
  /\ (exists cs,
        calls w' = (calls w ++ cs)%list
        /\ forall c key, In c cs -> keyOf c = Some key ->
             key = buildRedisKey A \/ key = bufferKey A)
  /\ (exists rows,
        user_searches w' = (user_searches w ++ rows)%list
        /\ forall r, In r rows ->
             (user_id r = A \/ anon_id r = A)
             /\ user_id r <> B /\ anon_id r <> B).
Proof.
  intros A B w' Hne. subst w'.
  split; [|split; [|split]].
  - apply LogSearch_frame; fold A;
      [by intros E%buildRedisKey_inj|apply head_buffer_apart].
  - apply LogSearch_frame; fold A;
      [apply buffer_head_apart|by intros E%bufferKey_inj].
  - destruct (LogSearch_calls l userID userAgent query w)
      as (cs & Hcalls & _ & Hkeys).
    exists cs. split; [done|]. intros c key Hc Hkey.
    destruct (Hkeys c Hc) as [H|[H|H]]; fold A in H.
    + left. congruence.
    + right. congruence.
    + destruct c; simpl in *; congruence.
  - destruct (LogSearch_added l userID userAgent query w)
      as (rows & Hrows & Hrow).
    exists rows. split; [done|]. intros r Hr.
    destruct (Hrow r Hr) as (Hu & Ha & _). rewrite Hu, Ha.
    pose proof (idForRedis_not_blank userID' userAgent') as HB. fold B in HB.
    subst A. unfold idForRedis, anonID in *.
    destruct (isAnon userID) eqn:Hanon.
    + split; [by right|]. split; [|done].
      intros ->. unfold isAnon in Hanon.
      by apply String.eqb_eq in Hanon.
    + split; [by left|]. split; [done|]. intros <-. by apply HB.
Qed.

(** A signed-in user and an anonymous one. *)
Lemma LogSearch_isolation_witness :
  let w := submit "" "AnonA" [(healthy, "alpha")] cold in
  let w' := (LogSearch healthy "user123" "" "beta" w).2 in
  idForRedis "user123" "" <> idForRedis "" "AnonA"
  /\ redis w' !! buildRedisKey (generateAnonID "AnonA")
     = Some ("alpha", (10 * Second)%Z).
Proof.
  intros w w'.
  assert (Hne : idForRedis "user123" "" <> idForRedis "" "AnonA")
    by discriminate.
  split; [exact Hne|].
  destruct (LogSearch_isolation healthy "user123" "" "beta" "" "AnonA" w Hne)
    as (Hhead & _).
  change (idForRedis "" "AnonA") with (generateAnonID "AnonA") in Hhead.
  subst w'. rewrite Hhead. vm_compute. reflexivity.
Defined.

(** ** Failures of the cache *)

(** C7, as stated, fails: the head read fails, [LogSearch] returns
    [nil] all the same and the query is in the cache under the head and
    the buffer of the user. *)
Lemma LogSearch_read_failure_unnoticed :
  let r := LogSearch readsDown "user123" "" "cat" cold in
  normalizeQuery "cat" <> ""
  /\ getFails (Redis readsDown) (buildRedisKey (idForRedis "user123" "")) = true
  /\ r.1 = None
  /\ redis r.2 !! buildRedisKey "user123" = Some ("cat", (10 * Second)%Z)
  /\ redis r.2 !! bufferKey "user123" = Some ("cat", (1 * Hour)%Z).
Proof. vm_compute. repeat split; discriminate. Qed.

(** C7, amended.  When the head write or the buffer write of a call
    with a non-empty normalized query fails, [LogSearch] returns an
    error, no row with the query is added to the table, and the key
    whose write failed holds what it held; the other write is not
    undone: after the error of the two writes, a key whose write went
    through holds the query.  A failed head read is not an error: it
    reads as an empty head, so no row is added and no SQL command is
    sent, and when the cache takes both writes the call returns [nil]
    with the query under the head and the buffer. *)
Theorem LogSearch_cache_failure l userID userAgent query w :
  let q := normalizeQuery query in
  let id := idForRedis userID userAgent in
  let r := LogSearch l userID userAgent query w in
  q <> "" ->
  (setFails (Redis l) (buildRedisKey id) = true
   \/ setFails (Redis l) (bufferKey id) = true ->
     (exists e, r.1 = Some e)
     /\ (exists rows,
           user_searches r.2 = (user_searches w ++ rows)%list
           /\ forall x, In x rows -> search_text x <> q)
     /\ (setFails (Redis l) (buildRedisKey id) = true ->
           redis r.2 !! buildRedisKey id = redis w !! buildRedisKey id)
     /\ (setFails (Redis l) (bufferKey id) = true ->
           redis r.2 !! bufferKey id = redis w !! bufferKey id))
  /\ (forall err1 err2, r.1 = Some (redis_set_error err1 err2) ->
        (setFails (Redis l) (buildRedisKey id) = false ->
           redis r.2 !! buildRedisKey id = Some (q, (10 * Second)%Z))
        /\ (setFails (Redis l) (bufferKey id) = false ->
              redis r.2 !! bufferKey id = Some (q, (1 * Hour)%Z)))
  /\ (getFails (Redis l) (buildRedisKey id) = true ->
        user_searches r.2 = user_searches w
        /\ filter isSql (calls r.2) = filter isSql (calls w)
        /\ (writable l id ->
              r.1 = None
              /\ redis r.2 !! buildRedisKey id = Some (q, (10 * Second)%Z)
              /\ redis r.2 !! bufferKey id = Some (q, (1 * Hour)%Z))).
Proof.
  intros q id r Hq.
  assert (Hhead : forall rows cs,
    (setFails (Redis l) (buildRedisKey id) = true ->
       redis (cachedWorld l id q rows cs w) !! buildRedisKey id
       = redis w !! buildRedisKey id)
    /\ (setFails (Redis l) (buildRedisKey id) = false ->
          redis (cachedWorld l id q rows cs w) !! buildRedisKey id
          = Some (q, (10 * Second)%Z))).
  { intros. unfold cachedWorld. cbn [redis].
    rewrite store_lookup_ne by apply buffer_head_apart.
    split; intros H; [by rewrite store_fails|by apply store_lookup]. }
  assert (Hbuffer : forall rows cs,
    (setFails (Redis l) (bufferKey id) = true ->
       redis (cachedWorld l id q rows cs w) !! bufferKey id
       = redis w !! bufferKey id)
    /\ (setFails (Redis l) (bufferKey id) = false ->
          redis (cachedWorld l id q rows cs w) !! bufferKey id
          = Some (q, (1 * Hour)%Z))).
  { intros. unfold cachedWorld. cbn [redis].
    split; intros H; [|by apply store_lookup].
    rewrite store_fails by done.
    by rewrite store_lookup_ne by apply head_buffer_apart. }
  assert (Hsets : (setFails (Redis l) (buildRedisKey id) = true
                   \/ setFails (Redis l) (bufferKey id) = true) ->
                  exists e, setsError l id = Some e).
  { unfold setsError, setError.
    destruct (setFails _ (buildRedisKey id)), (setFails _ (bufferKey id));
      intros [|]; try done; by eexists. }
  split; [|split].
  - intros Hfail.
    destruct (LogSearch_added l userID userAgent query w)
      as (rows & Hrows & Hrow).
    split; [|split; [exists rows; split; [done|intros x (_ & _ & _ & H)%Hrow; exact H]|]];
      subst r; rewrite LogSearch_run by done; fold q id;
      (destruct (isReset _ _); [destruct (sqlError l _)|]); cbn [fst snd];
      try (by eexists); try (by apply Hsets);
      split; intros H; first [done | by apply Hhead | by apply Hbuffer].
  - intros err1 err2. subst r. rewrite LogSearch_run by done. fold q id.
    destruct (isReset _ _) eqn:Hreset;
      [destruct (sqlError l _) eqn:Herr|]; cbn [fst snd]; intros He;
      try (split; intros H; first [by apply Hhead | by apply Hbuffer]).
    exfalso. unfold sqlError in Herr.
    destruct (_ =? _)%string, (fault (DB l)); congruence.
  - intros Hget. subst r. rewrite LogSearch_run by done. fold q id.
    rewrite lastQueryRead_down by done. rewrite isReset_empty.
    cbn [fst snd]. unfold cachedWorld at 1 2. cbn [user_searches calls].
    split; [by rewrite app_nil_r|]. split.
    + rewrite filter_app. simpl. by rewrite app_nil_r.
    + intros [H1 H2]. split; [|split; [by apply Hhead|by apply Hbuffer]].
      unfold setsError, setError. by rewrite H1, H2.
Qed.

(** The buffer write fails after a reset flush: an error, "cat" in the
    table and not "dog", "dog" under the head, "cat" still in the buffer. *)
Lemma LogSearch_cache_failure_witness :
  let l := mkLogger (mkRedisClient (fun _ => false)
                       (fun key => String.eqb key (bufferKey "user123"))
                       (fun _ => false)) (mkSqlDB NoFault) in
  let w := submit "user123" "" [(healthy, "cat")] cold in
  let r := LogSearch l "user123" "" "dog" w in
  setFails (Redis l) (bufferKey (idForRedis "user123" "")) = true
  /\ (exists e, r.1 = Some e)
  /\ redis r.2 !! bufferKey "user123" = Some ("cat", (1 * Hour)%Z)
  /\ redis r.2 !! buildRedisKey "user123" = Some ("dog", (10 * Second)%Z).
Proof.
  intros l w r.
  assert (Hq : normalizeQuery "dog" <> "") by (vm_compute; discriminate).
  assert (Hfail : setFails (Redis l) (bufferKey (idForRedis "user123" "")) = true)
    by reflexivity.
  destruct (LogSearch_cache_failure l "user123" "" "dog" w Hq)
    as (Hwrite & Hkeep & _).
  destruct (Hwrite (or_intror Hfail)) as (Herr & _ & _ & Hbuffer).
  split; [exact Hfail|]. split; [exact Herr|]. split.
  - change (idForRedis "user123" "") with "user123" in Hbuffer.
    subst r. rewrite (Hbuffer Hfail). vm_compute. reflexivity.
  - destruct (Hkeep None (Some redis_failed) eq_refl) as (Hhead & _).
    apply Hhead. reflexivity.
Defined.

(** ** Bursts *)

(** C2.  Take calls of [LogSearch] by one caller whose normalized
    queries are non-empty and each a prefix of the one before or
    prefixed by it, the first one so related to the head that the cache
    holds, and let the cache take the writes.  Then the table is as it
    was and no SQL command is sent; after the last call the head and
    the buffer of the identity hold the last query; an expiry of the
    head that the listener then handles, and a later call of
    [LogSearch] that resets, both write that query. *)
Theorem burst_never_flushes userID userAgent cs w :
  let id := idForRedis userID userAgent in
  let w' := submit userID userAgent cs w in
  burst (cached (buildRedisKey id) w) (map snd cs) ->
  Forall (fun c => writable c.1 id) cs ->
  user_searches w' = user_searches w
  /\ filter isSql (calls w') = filter isSql (calls w)
  /\ forall l query cs', cs = (cs' ++ [(l, query)])%list ->
       let q := normalizeQuery query in
       redis w' !! buildRedisKey id = Some (q, (10 * Second)%Z)
       /\ redis w' !! bufferKey id = Some (q, (1 * Hour)%Z)
       /\ (forall l',
             getFails (Redis l') (bufferKey id) = false ->
             fault (DB l') = NoFault ->
             user_searches
               (onExpired l' (buildRedisKey id)
                  (expire (buildRedisKey id) w')).2
             = (user_searches w ++ [rowOf (expiredEntry id q)])%list)
       /\ (forall l' query',
             normalizeQuery query' <> "" ->
             resetDetected q (normalizeQuery query') ->
             getFails (Redis l') (buildRedisKey id) = false ->
             fault (DB l') = NoFault ->
             user_searches (LogSearch l' userID userAgent query' w').2
             = (user_searches w
                ++ [mkRow userID q (anonID userID userAgent)])%list).
Proof.
  intros id w'. subst w'. revert w.
  induction cs as [|[l0 query0] cs IH]; intros w Hburst Hwr.
  { simpl. split; [done|]. split; [done|]. by intros l query []. }
  cbn [map snd burst] in Hburst. destruct Hburst as (Hq & Hrel & Hburst).
  apply Forall_cons in Hwr as [Hwr0 Hwr]. cbn [fst] in Hwr0.
  destruct (LogSearch_extend l0 userID userAgent query0 w Hq Hrel Hwr0)
    as (Hrows & Hsql & Hhead & Hbuffer). fold id in Hhead, Hbuffer.
  set (w1 := (LogSearch l0 userID userAgent query0 w).2) in *.
  cbn [submit]. fold w1.
  rewrite <- (cached_lookup _ w1 _ _ Hhead) in Hburst.
  destruct (IH w1 Hburst Hwr) as (IHrows & IHsql & IHlast).
  split; [congruence|]. split; [congruence|].
  intros l query cs' Hcs. destruct cs' as [|c cs'].
  - simpl in Hcs. injection Hcs as -> -> ->. cbn [submit].
    split; [done|]. split; [done|]. split.
    + intros l' Hget Hdb. rewrite <- Hrows.
      assert (Hkept : redis (expire (buildRedisKey id) w1) !! bufferKey id
                      = Some (normalizeQuery query, (1 * Hour)%Z)).
      { unfold expire. cbn [redis].
        rewrite lookup_delete_ne by apply head_buffer_apart. exact Hbuffer. }
      exact (proj1 (onExpired_row l' id _ _ _ Hkept Hq Hget Hdb)).
    + intros l' query' Hq' Hreset Hget Hdb. rewrite <- Hrows.
      rewrite LogSearch_reset_row; fold id;
        rewrite ?(cached_lookup _ w1 _ _ Hhead); done.
  - simpl in Hcs. injection Hcs as _ ->.
    rewrite <- Hrows. by apply (IHlast l query cs').
Qed.

(** Typing "t", "te", "tes", "test" into an empty cache. *)
Lemma burst_never_flushes_witness :
  let cs := [(healthy, "t"); (healthy, "te"); (healthy, "tes"); (healthy, "test")] in
  let w' := submit "test-prefix" "TestAgent" cs cold in
  burst (cached (buildRedisKey (idForRedis "test-prefix" "TestAgent")) cold)
        (map snd cs)
  /\ user_searches w' = []
  /\ redis w' !! bufferKey "test-prefix" = Some ("test", (1 * Hour)%Z)
  /\ user_searches
       (onExpired healthy (buildRedisKey "test-prefix")
          (expire (buildRedisKey "test-prefix") w')).2
     = [mkRow "test-prefix" "test" ""].
Proof.
  intros cs w'.
  assert (Hburst : burst (cached (buildRedisKey
                            (idForRedis "test-prefix" "TestAgent")) cold)
                     (map snd cs)).
  { vm_compute. repeat split; (discriminate || (by left) || (by right)). }
  assert (Hwr : Forall (fun c => writable c.1 (idForRedis "test-prefix" "TestAgent")) cs).
  { repeat constructor. }
  destruct (burst_never_flushes "test-prefix" "TestAgent" cs cold Hburst Hwr)
    as (Hrows & _ & Hlast).
  destruct (Hlast healthy "test"
              [(healthy, "t"); (healthy, "te"); (healthy, "tes")] eq_refl)
    as (_ & Hbuffer & Hexpiry & _).
  split; [exact Hburst|]. split; [exact Hrows|]. split; [exact Hbuffer|].
  apply (Hexpiry healthy); reflexivity.
Defined.

(** ** The expiry flush *)

(** C3, as stated, fails: with the empty string stored in the buffer,
    the listener writes no row but deletes the buffer key. *)
Lemma onExpired_empty_value_deleted :
  let w := mkWorld {[ bufferKey "u1" := ("", (1 * Hour)%Z) ]} [] [] in
  let w' := (onExpired healthy (buildRedisKey "u1") w).2 in
  redis w !! bufferKey "u1" = Some ("", (1 * Hour)%Z)
  /\ user_searches w' = []
  /\ redis w' !! bufferKey "u1" = None
  /\ redis w' <> redis w
  /\ calls w' = [RedisGet (bufferKey "u1"); RedisDel (bufferKey "u1")].
Proof.
  intros w w'.
  assert (H : redis w' !! bufferKey "u1" = None) by (vm_compute; reflexivity).
  repeat split; try (vm_compute; reflexivity).
  intros E. rewrite E in H. vm_compute in H. discriminate.
Qed.

(** C3, amended.  On the expiry of the head key of an identity:
    when the read of the buffer fails or the key is missing, the
    listener sends that read and nothing else, and the cache and the
    table stay as they were; when the buffer holds the empty string, no
    row is written and the buffer key is deleted; when it holds a query
    and the database is in order, one row with that query is added and
    the buffer key is deleted, provided that Redis carries out the
    [Del]; when the write fails, the cache and the table stay as they
    were and no [Del] is sent.  After a turn in which the read, the
    write and the [Del] went through, a second expiry of the same key
    leaves the table and the cache as they are. *)
Theorem onExpired_flush l l2 userID w :
  let key := bufferKey userID in
  let w' := (onExpired l (buildRedisKey userID) w).2 in
  let w'' := (onExpired l2 (buildRedisKey userID) w').2 in
  (getFails (Redis l) key = true \/ redis w !! key = None ->
     redis w' = redis w /\ user_searches w' = user_searches w
     /\ calls w' = (calls w ++ [RedisGet key])%list)
  /\ (forall query ttl,
        getFails (Redis l) key = false ->
        redis w !! key = Some (query, ttl) ->
        (query = "" ->
           user_searches w' = user_searches w
           /\ calls w' = (calls w ++ [RedisGet key; RedisDel key])%list
           /\ (delFails (Redis l) key = false ->
                 redis w' = delete key (redis w)))
        /\ (query <> "" -> fault (DB l) = NoFault ->
              user_searches w'
              = (user_searches w
                 ++ [if strings.HasPrefix userID "anon"
                     then mkRow "" query userID
                     else mkRow userID query ""])%list
              /\ (delFails (Redis l) key = false ->
                    redis w' = delete key (redis w))
              /\ (delFails (Redis l) key = true -> redis w' = redis w))
        /\ (query <> "" -> fault (DB l) <> NoFault ->
              user_searches w' = user_searches w
              /\ redis w' = redis w
              /\ ~ In (RedisDel key) (skipn (length (calls w)) (calls w'))))
  /\ (getFails (Redis l) key = false ->
      fault (DB l) = NoFault ->
      delFails (Redis l) key = false ->
        redis w' !! key = None
        /\ user_searches w'' = user_searches w'
        /\ redis w'' = redis w').
Proof.
  intros key w' w''.
  assert (Hskip : forall l0 w0,
            getFails (Redis l0) key = true \/ redis w0 !! key = None ->
            (onExpired l0 (buildRedisKey userID) w0).2 = skippedWorld userID w0).
  { intros l0 w0 H. rewrite onExpired_run. cbn [snd]. fold key.
    destruct (getFails (Redis l0) key); [done|].
    destruct H as [|H]; [done|]. by rewrite H. }
  split; [|split].
  - intros H. subst w'. by rewrite Hskip.
  - intros query ttl Hget Hlook. subst w'.
    rewrite onExpired_run. fold key. rewrite Hget, Hlook. cbn [snd].
    assert (HQ : Query (expiredEntry userID query) = query).
    { unfold expiredEntry. by destruct (strings.HasPrefix _ _). }
    unfold flushedWorld, sqlError, written, sqlCalls, remove. rewrite HQ.
    fold key. split; [|split].
    + intros ->. simpl.
      destruct (fault (DB l)); simpl; rewrite ?app_nil_r;
        (repeat split; [done..|]); by intros ->.
    + intros Hq Hdb. apply String.eqb_neq in Hq. rewrite Hq, Hdb.
      cbn [user_searches redis]. split; [|split].
      * unfold expiredEntry. by destruct (strings.HasPrefix _ _).
      * by intros ->.
      * by intros ->.
    + intros Hq Hdb. apply String.eqb_neq in Hq. rewrite Hq.
      destruct (fault (DB l)); [done|..];
        cbn [user_searches redis calls];
        rewrite skipn_app, Nat.sub_diag, skipn_all; simpl;
        repeat split; try done; intuition discriminate.
  - intros Hget Hdb Hdel.
    assert (Hgone : redis w' !! key = None).
    { subst w'. rewrite onExpired_run. fold key. rewrite Hget. cbn [snd].
      destruct (redis w !! key) as [[query ttl]|] eqn:Hlook; [|done].
      unfold flushedWorld, sqlError, remove. fold key. rewrite Hdb, Hdel.
      destruct (_ =? _)%string; cbn [redis]; apply lookup_delete_eq. }
    split; [done|]. subst w''. by rewrite Hskip by (by right).
Qed.

(** The burst "hello" left idle: one row, then nothing more. *)
Lemma onExpired_flush_witness :
  let w := expire (buildRedisKey "user123")
             (submit "user123" "" [(healthy, "hello")] cold) in
  let w' := (onExpired healthy (buildRedisKey "user123") w).2 in
  let w'' := (onExpired healthy (buildRedisKey "user123") w').2 in
  redis w !! bufferKey "user123" = Some ("hello", (1 * Hour)%Z)
  /\ user_searches w' = [mkRow "user123" "hello" ""]
  /\ redis w' !! bufferKey "user123" = None
  /\ user_searches w'' = [mkRow "user123" "hello" ""].
Proof.
  intros w w' w''.
  assert (Hlook : redis w !! bufferKey "user123" = Some ("hello", (1 * Hour)%Z))
    by (vm_compute; reflexivity).
  destruct (onExpired_flush healthy healthy "user123" w) as (_ & Hflush & Hagain).
  destruct (Hflush "hello" (1 * Hour)%Z eq_refl Hlook) as (_ & Hrow & _).
  assert (Hq : "hello" <> "") by discriminate.
  destruct (Hrow Hq eq_refl) as (Hrows & _).
  destruct (Hagain eq_refl eq_refl eq_refl) as (Hgone & Hsame & _).
  split; [exact Hlook|]. split; [exact Hrows|]. split; [exact Hgone|].
  exact (eq_trans Hsame Hrows).
Defined.

(** ** The identity columns *)

(** C4, at the failing input: a call of [LogSearch] with the user
    identifier " " (one space) that resets the burst "cat" writes a row
    with the space as user identifier and the anonymous identifier of
    the user agent beside it: both identity columns are filled. *)
Theorem LogSearch_blank_userID_row :
  let w := submit " " "TestAgent" [(healthy, "cat")] cold in
  let w' := (LogSearch healthy " " "TestAgent" "dog" w).2 in
  let r := mkRow " " "cat"
    "anon81d87514fb97bb2a799c33d42140585357d1ffb69f327307c12cc41c2a431295" in
  user_searches w' = [r]
  /\ user_id r <> "" /\ anon_id r <> ""
  /\ ~ oneIdentity r.
Proof.
  intros w w' r. split; [vm_compute; reflexivity|].
  split; [discriminate|]. split; [discriminate|].
  intros [[_ H]|[H _]]; discriminate.
Qed.

(** C5, at the failing input: the signed-in user "anonymous42", whose
    identifier [LogSearch] takes as it stands and writes to the user
    column on a reset, is taken for an anonymous identity by the
    listener, which writes the identifier to the anonymous column,
    though it has not the format of [generateAnonID]. *)
Theorem onExpired_anon_prefixed_user :
  let w := submit "anonymous42" "Mozilla/5.0" [(healthy, "hello")] cold in
  let reset := (LogSearch healthy "anonymous42" "Mozilla/5.0" "world" w).2 in
  let expired :=
    (onExpired healthy (buildRedisKey "anonymous42")
       (expire (buildRedisKey "anonymous42") w)).2 in
  isAnon "anonymous42" = false
  /\ idForRedis "anonymous42" "Mozilla/5.0" = "anonymous42"
  /\ anonFormat "anonymous42" = false
  /\ user_searches reset = [mkRow "anonymous42" "hello" ""]
  /\ user_searches expired = [mkRow "" "hello" "anonymous42"].
Proof. vm_compute. repeat split; reflexivity. Qed.

(** * Further properties of the code *)

(** ** What a call of [LogSearch] leaves behind *)

Lemma store_id l key value expiration m :
  m !! key = Some (value, expiration) ->
  store l key value expiration m = m.
Proof.
  unfold store. intros H. destruct (setFails (Redis l) key); [done|].
  by apply insert_id.
Qed.

Lemma store_is_Some l key value expiration m key' :
  is_Some (m !! key') -> is_Some (store l key value expiration m !! key').
Proof.
  unfold store. intros H. destruct (setFails (Redis l) key); [done|].
  destruct (decide (key = key')) as [->|Hne].
  - rewrite lookup_insert_eq. by eexists.
  - by rewrite lookup_insert_ne.
Qed.

Lemma setsError_None l id :
  setsError l id = None <-> writable l id.
Proof.
  unfold setsError, setError, writable.
  destruct (setFails (Redis l) (buildRedisKey id)),
    (setFails (Redis l) (bufferKey id)); intuition congruence.
Qed.

Lemma cachedWorld_lookup l id q rows cs w :
  writable l id ->
  redis (cachedWorld l id q rows cs w) !! buildRedisKey id
  = Some (q, (10 * Second)%Z)
  /\ redis (cachedWorld l id q rows cs w) !! bufferKey id
     = Some (q, (1 * Hour)%Z).
Proof.
  intros [Hhead Hbuffer]. unfold cachedWorld. cbn [redis]. split.
  - rewrite store_lookup_ne by apply buffer_head_apart. by apply store_lookup.
  - by apply store_lookup.
Qed.

Lemma LogSearch_nil l userID userAgent query w :
  let q := normalizeQuery query in
  let id := idForRedis userID userAgent in
  let r := LogSearch l userID userAgent query w in
  q <> "" -> r.1 = None ->
  writable l id
  /\ exists rows cs, r.2 = cachedWorld l id q rows cs w.
Proof.
  intros q id r Hq. subst r. rewrite LogSearch_run by done. fold q id.
  destruct (isReset _ _); [destruct (sqlError l _)|]; cbn [fst snd];
    try done; intros H%setsError_None; (split; [done|by eexists _, _]).
Qed.

Lemma LogSearch_nil_cached l userID userAgent query w :
  let q := normalizeQuery query in
  let id := idForRedis userID userAgent in
  let r := LogSearch l userID userAgent query w in
  q <> "" -> r.1 = None ->
  redis r.2 !! buildRedisKey id = Some (q, 10000000000%Z)
  /\ redis r.2 !! bufferKey id = Some (q, 3600000000000%Z).
Proof.
  intros q id r Hq Hnil.
  destruct (LogSearch_nil l userID userAgent query w Hq Hnil)
    as (Hwr & rows & cs & Hr).
  subst r. rewrite Hr. by apply cachedWorld_lookup.
Qed.

(** X3.  When [LogSearch] returns [nil] for a query with a non-empty
    normalized text, the head and the buffer of the identity both hold
    that text, the head for ten seconds and the buffer for an hour. *)
Theorem LogSearch_success_caches l userID userAgent query w :
  let q := normalizeQuery query in
  let id := idForRedis userID userAgent in
  let r := LogSearch l userID userAgent query w in
  q <> "" -> r.1 = None ->
  redis r.2 !! buildRedisKey id = Some (q, 10000000000%Z)
  /\ redis r.2 !! bufferKey id = Some (q, 3600000000000%Z).
Proof. apply LogSearch_nil_cached. Qed.

Lemma LogSearch_success_caches_witness :
  let r := LogSearch healthy "" "AnonTestAgent" "Search Term" cold in
  normalizeQuery "Search Term" <> ""
  /\ r.1 = None
  /\ redis r.2 !! buildRedisKey (generateAnonID "AnonTestAgent")
     = Some ("search term", 10000000000%Z).
Proof.
  intros r.
  assert (Hq : normalizeQuery "Search Term" <> "") by (vm_compute; discriminate).
  assert (Hnil : r.1 = None) by (vm_compute; reflexivity).
  split; [exact Hq|]. split; [exact Hnil|].
  exact (proj1 (LogSearch_success_caches healthy "" "AnonTestAgent"
                  "Search Term" cold Hq Hnil)).
Defined.

(** X4.  Submitting again the query of a call that returned [nil]
    changes neither the cache nor the table, whatever the services do
    the second time, and returns [nil] when the cache takes the two
    writes. *)
Theorem LogSearch_resubmit l l' userID userAgent query w :
  let id := idForRedis userID userAgent in
  let r := LogSearch l userID userAgent query w in
  let r' := LogSearch l' userID userAgent query r.2 in
  normalizeQuery query <> "" -> r.1 = None ->
  redis r'.2 = redis r.2
  /\ user_searches r'.2 = user_searches r.2
  /\ (writable l' id -> r'.1 = None).
Proof.
  intros id r r' Hq Hnil.
  destruct (LogSearch_nil l userID userAgent query w Hq Hnil)
    as (Hwr & rows & cs & Hr). fold r id in Hr.
  destruct (cachedWorld_lookup l id (normalizeQuery query) rows cs w Hwr)
    as [Hhead Hbuffer]. rewrite <- Hr in Hhead, Hbuffer.
  assert (Hno : isReset (lastQueryRead l' (buildRedisKey id) r.2)
                  (normalizeQuery query) = false).
  { unfold lastQueryRead. destruct (getFails _ _); [done|].
    rewrite (cached_lookup _ _ _ _ Hhead).
    apply related_no_reset. left. apply HasPrefix_refl. }
  subst r'. rewrite LogSearch_run by done. fold id. rewrite Hno.
  unfold cachedWorld. cbn [fst snd redis user_searches].
  split; [|split].
  - rewrite (store_id l' (buildRedisKey id)) by done. by apply store_id.
  - by rewrite app_nil_r.
  - by intros H%setsError_None.
Qed.

Lemma LogSearch_resubmit_witness :
  let r := LogSearch healthy "test-user" "TestAgent" "MyQuery" cold in
  let r' := LogSearch commitDown "test-user" "TestAgent" "MyQuery" r.2 in
  normalizeQuery "MyQuery" <> "" /\ r.1 = None
  /\ redis r'.2 = redis r.2 /\ user_searches r'.2 = [].
Proof.
  intros r r'.
  assert (Hq : normalizeQuery "MyQuery" <> "") by (vm_compute; discriminate).
  assert (Hnil : r.1 = None) by (vm_compute; reflexivity).
  destruct (LogSearch_resubmit healthy commitDown "test-user" "TestAgent"
              "MyQuery" cold Hq Hnil) as (Hredis & Hrows & _).
  split; [exact Hq|]. split; [exact Hnil|]. split; [exact Hredis|].
  exact (eq_trans Hrows eq_refl).
Defined.

(** X5.  [LogSearch] adds at most one row to the table and removes
    none; it leaves every key that the cache holds in the cache and
    sends neither [Del] nor any command for a key other than the head
    and the buffer of the caller's identity. *)
Theorem LogSearch_footprint l userID userAgent query w :
  let id := idForRedis userID userAgent in
  let w' := (LogSearch l userID userAgent query w).2 in
  (exists added,
     user_searches w' = (user_searches w ++ added)%list
     /\ (length added <= 1)%nat)
  /\ (forall key, is_Some (redis w !! key) -> is_Some (redis w' !! key))
  /\ (forall key, In (RedisDel key) (calls w') -> In (RedisDel key) (calls w))
  /\ (forall key, key <> buildRedisKey id -> key <> bufferKey id ->
        redis w' !! key = redis w !! key).
Proof.
  intros id w'. subst w'.
  split; [|split; [|split]].
  - destruct (String.eqb_spec (normalizeQuery query) "") as [He|Hq].
    { rewrite LogSearch_empty by done. exists [].
      rewrite app_nil_r. split; [done|simpl; lia]. }
    rewrite LogSearch_run by done.
    destruct (isReset _ _); [destruct (sqlError l _)|]; cbn [snd];
      unfold flushFailedWorld, cachedWorld; cbn [user_searches].
    + exists []. rewrite app_nil_r. split; [done|simpl; lia].
    + eexists. split; [reflexivity|]. unfold written.
      destruct (fault (DB l)); simpl; try lia.
      destruct (_ =? _)%string; simpl; lia.
    + exists []. split; [done|simpl; lia].
  - intros key Hkey.
    destruct (String.eqb_spec (normalizeQuery query) "") as [He|Hq].
    { by rewrite LogSearch_empty. }
    rewrite LogSearch_run by done.
    destruct (isReset _ _); [destruct (sqlError l _)|]; cbn [snd];
      unfold flushFailedWorld, cachedWorld; cbn [redis]; try done;
      by do 2 apply store_is_Some.
  - intros key Hin.
    destruct (LogSearch_calls l userID userAgent query w)
      as (cs & Hcalls & _ & Hkeys).
    rewrite Hcalls in Hin. apply in_app_or in Hin as [Hin|Hin]; [done|].
    exfalso.
    destruct (String.eqb_spec (normalizeQuery query) "") as [He|Hq].
    { rewrite LogSearch_empty in Hcalls by done. cbn [snd] in Hcalls.
      rewrite <- (app_nil_r (calls w)) in Hcalls at 1.
      apply app_inv_head in Hcalls. by subst cs. }
    rewrite LogSearch_run in Hcalls by done.
    revert Hcalls.
    destruct (isReset _ _); [destruct (sqlError l _)|]; cbn [snd];
      unfold flushFailedWorld, cachedWorld; cbn [calls];
      intros Hcalls%app_inv_head; subst cs;
      destruct Hin as [Hin|Hin]; try done;
      repeat (apply in_app_or in Hin as [Hin|Hin]);
      try (apply sqlCalls_isSql in Hin; done);
      simpl in Hin; intuition discriminate.
  - intros key H1 H2. by apply LogSearch_frame.
Qed.

(** ** Transactions *)

(** X6.  [writeSearch] never touches the cache, and one call is all or
    nothing: it returns [nil] with the row of the entry added (no row
    for an empty query), or an error with the table as it was.  It
    rolls back exactly when the insert fails.  It does not deduplicate:
    a second call with the same entry adds the row again. *)
Theorem writeSearch_atomic l entry w :
  let r := writeSearch l entry w in
  let sent := skipn (length (calls w)) (calls r.2) in
  redis r.2 = redis w
  /\ ((r.1 = None
       /\ user_searches r.2
          = (user_searches w
             ++ if (Query entry =? "")%string then [] else [rowOf entry])%list)
      \/ (r.1 <> None /\ user_searches r.2 = user_searches w))
  /\ (In SqlRollback sent <-> Query entry <> "" /\ fault (DB l) = ExecFails)
  /\ user_searches (writeSearch l entry r.2).2
     = (user_searches w ++ written l entry ++ written l entry)%list.
Proof.
  intros r sent. subst sent r. rewrite !writeSearch_run.
  cbn [fst snd redis user_searches calls].
  rewrite skipn_app, Nat.sub_diag, skipn_all, <- app_assoc.
  unfold sqlError, sqlCalls, written, rowOf.
  destruct (String.eqb_spec (Query entry) ""), (fault (DB l)); simpl;
    rewrite ?app_nil_r; repeat split; try tauto; try congruence;
    try (by left); try (by right); try (intros [? ?]; congruence);
    intuition congruence.
Qed.

(** ** Anonymous identifiers *)

(** X7.  Whatever the user agent, [generateAnonID] yields 68 bytes:
    "anon" and 64 lower-case hexadecimal digits.  Such an identifier
    begins with the marker that the listener looks for, and it is not
    blank, so that [LogSearch] called with it as user identifier takes
    it as it stands. *)
Theorem generateAnonID_shape userAgent userAgent' :
  String.length (generateAnonID userAgent) = 68%nat
  /\ anonFormat (generateAnonID userAgent) = true
  /\ strings.HasPrefix (generateAnonID userAgent) "anon" = true
  /\ isAnon (generateAnonID userAgent) = false
  /\ idForRedis (generateAnonID userAgent) userAgent' = generateAnonID userAgent.
Proof.
  assert (Hanon : isAnon (generateAnonID userAgent) = false).
  { unfold isAnon. apply String.eqb_neq, TrimSpace_anon. }
  split; [|split; [|split; [|split]]].
  - change (String.length (String "a" (String "n" (String "o" (String "n"
              (fmt.hex (sha256.Sum256 userAgent)))))) = 68%nat).
    cbn [String.length]. by rewrite hex_length, Sum256_length.
  - apply generateAnonID_format.
  - apply generateAnonID_prefix.
  - exact Hanon.
  - unfold idForRedis. by rewrite Hanon.
Qed.

(** ** From the cache to the table by expiry *)

(** X8.  After a call of [LogSearch] that returned [nil], made by an
    anonymous caller or by a signed-in user whose identifier does not
    begin with "anon", the expiry of the head key makes a listener whose
    services are in order write one row: the normalized query, under the
    user identifier for the signed-in user and under the anonymous
    identifier, with an empty user column, for the anonymous caller.
    When Redis carries out the [Del], neither the head nor the buffer of
    the identity is left. *)
Theorem expiry_attribution l l' userID userAgent query w :
  let q := normalizeQuery query in
  let id := idForRedis userID userAgent in
  let r := LogSearch l userID userAgent query w in
  let w' := (onExpired l' (buildRedisKey id) (expire (buildRedisKey id) r.2)).2 in
  q <> "" -> r.1 = None ->
  isAnon userID = true \/ strings.HasPrefix userID "anon" = false ->
  getFails (Redis l') (bufferKey id) = false ->
  fault (DB l') = NoFault ->
  user_searches w'
  = (user_searches r.2
     ++ [mkRow (if isAnon userID then "" else userID) q
               (anonID userID userAgent)])%list
  /\ (delFails (Redis l') (bufferKey id) = false ->
        redis w' !! buildRedisKey id = None
        /\ redis w' !! bufferKey id = None).
Proof.
  intros q id r w' Hq Hnil Hwho Hget Hdb.
  destruct (LogSearch_nil_cached l userID userAgent query w Hq Hnil)
    as [_ Hbuffer]. fold r id q in Hbuffer.
  assert (Hkept : redis (expire (buildRedisKey id) r.2) !! bufferKey id
                  = Some (q, 3600000000000%Z)).
  { unfold expire. cbn [redis].
    by rewrite lookup_delete_ne by apply head_buffer_apart. }
  destruct (onExpired_row l' id q _ _ Hkept Hq Hget Hdb)
    as (Hrows & Hredis & _). fold w' in Hrows, Hredis.
  split.
  - rewrite Hrows. cbn [expire user_searches]. f_equal. f_equal.
    unfold rowOf, expiredEntry. subst id. unfold idForRedis, anonID.
    destruct (isAnon userID) eqn:Hanon.
    + by rewrite generateAnonID_prefix.
    + destruct Hwho as [H|H]; [congruence|]. by rewrite H.
  - intros Hdel. rewrite Hredis. unfold remove, expire. rewrite Hdel.
    cbn [redis]. split.
    + rewrite lookup_delete_ne by apply buffer_head_apart.
      apply lookup_delete_eq.
    + apply lookup_delete_eq.
Qed.

Lemma expiry_attribution_witness :
  let r := LogSearch healthy "" "AgentX" "hello" cold in
  let key := buildRedisKey (generateAnonID "AgentX") in
  let w' := (onExpired healthy key (expire key r.2)).2 in
  r.1 = None
  /\ user_searches w' = [mkRow "" "hello" (generateAnonID "AgentX")]
  /\ redis w' !! bufferKey (generateAnonID "AgentX") = None.
Proof.
  intros r key w'.
  assert (Hq : normalizeQuery "hello" <> "") by (vm_compute; discriminate).
  assert (Hnil : r.1 = None) by (vm_compute; reflexivity).
  destruct (expiry_attribution healthy healthy "" "AgentX" "hello" cold
              Hq Hnil (or_introl eq_refl) eq_refl eq_refl) as (Hrows & Hgone).
  split; [exact Hnil|]. split.
  - exact (eq_trans Hrows eq_refl).
  - exact (proj2 (Hgone eq_refl)).
Defined.

(** ** The loop of the listener *)

Lemma onExpired_footprint l expiredKey w :
  let w' := (onExpired l expiredKey w).2 in
  extends (user_searches w) (user_searches w')
  /\ (forall key,
        redis w' !! key = redis w !! key
        \/ (redis w' !! key = None
            /\ exists userID,
                 key = bufferKey userID /\ expiredKey = buildRedisKey userID))
  /\ (forall key value expiration,
        In (RedisSet key value expiration) (calls w') ->
        In (RedisSet key value expiration) (calls w)).
Proof.
  intros w'. subst w'.
  destruct (strings.HasPrefix expiredKey "search:last:") eqn:Hp.
  2:{ rewrite onExpired_other by done. cbn [snd].
      split; [exists []; by rewrite app_nil_r|]. split; [by left|done]. }
  apply head_namespace in Hp as [userID ->]. rewrite onExpired_run.
  cbn [snd].
  assert (Hskip : let w' := skippedWorld userID w in
            extends (user_searches w) (user_searches w')
            /\ (forall key,
                  redis w' !! key = redis w !! key
                  \/ (redis w' !! key = None
                      /\ exists userID0,
                           key = bufferKey userID0
                           /\ buildRedisKey userID = buildRedisKey userID0))
            /\ (forall key value expiration,
                  In (RedisSet key value expiration) (calls w') ->
                  In (RedisSet key value expiration) (calls w))).
  { unfold skippedWorld. cbn.
    split; [exists []; by rewrite app_nil_r|]. split; [by left|].
    intros key value expiration [H|[H|[]]]%in_app_or; done. }
  destruct (getFails _ _); [done|].
  destruct (redis w !! bufferKey userID) as [[query ttl]|]; [|done].
  unfold flushedWorld.
  destruct (sqlError l _); cbn [redis user_searches calls].
  - split; [exists []; by rewrite app_nil_r|]. split; [by left|].
    intros key value expiration [H|[H|H]]%in_app_or; try done.
    by apply sqlCalls_isSql in H.
  - split; [by eexists|]. split.
    + intros key. unfold remove. destruct (delFails _ _); [by left|].
      destruct (decide (key = bufferKey userID)) as [->|Hne].
      * right. split; [apply lookup_delete_eq|by exists userID].
      * left. by apply lookup_delete_ne.
    + intros key value expiration [H|[H|H]]%in_app_or; try done.
      apply in_app_or in H as [H|[H|[]]]; [|done].
      by apply sqlCalls_isSql in H.
Qed.

(** X9.  However many messages the listener handles, it only adds rows
    to the table; a key of the cache is as it was or is the buffer key
    of an expired head that the listener has deleted; no head key is
    changed; and the listener never sends a [Set]. *)
Theorem listener_footprint l rs w :
  let w' := (StartKeyspaceListener l rs w).2 in
  extends (user_searches w) (user_searches w')
  /\ (forall key,
        redis w' !! key = redis w !! key
        \/ (redis w' !! key = None
            /\ exists userID,
                 key = bufferKey userID
                 /\ In (msg (buildRedisKey userID)) rs))
  /\ (forall userID,
        redis w' !! buildRedisKey userID = redis w !! buildRedisKey userID)
  /\ (forall key value expiration,
        In (RedisSet key value expiration) (calls w') ->
        In (RedisSet key value expiration) (calls w)).
Proof.
  intros w'. subst w'.
  assert (Hmain : extends (user_searches w)
                    (user_searches (StartKeyspaceListener l rs w).2)
    /\ (forall key,
          redis (StartKeyspaceListener l rs w).2 !! key = redis w !! key
          \/ (redis (StartKeyspaceListener l rs w).2 !! key = None
              /\ exists userID,
                   key = bufferKey userID
                   /\ In (msg (buildRedisKey userID)) rs))
    /\ (forall key value expiration,
          In (RedisSet key value expiration)
             (calls (StartKeyspaceListener l rs w).2) ->
          In (RedisSet key value expiration) (calls w))).
  { revert w. induction rs as [|[|expiredKey] rs IH]; intros w.
    - split; [exists []; by rewrite app_nil_r|]. split; [by left|done].
    - split; [exists []; by rewrite app_nil_r|]. split; [by left|done].
    - rewrite StartKeyspaceListener_msg.
      destruct (onExpired_footprint l expiredKey w) as (Hrows & Hkeys & Hsets).
      destruct (IH (onExpired l expiredKey w).2) as (IHrows & IHkeys & IHsets).
      split; [|split].
      + destruct Hrows as [a Ha], IHrows as [b Hb].
        exists (a ++ b)%list. by rewrite Hb, Ha, app_assoc.
      + intros key.
        destruct (IHkeys key) as [->|(Hnone & userID & -> & Hin)].
        * destruct (Hkeys key) as [->|(Hnone & userID & -> & ->)];
            [by left|].
          right. split; [done|]. exists userID. split; [done|by left].
        * right. split; [done|]. exists userID. split; [done|by right].
      + intros key value expiration H. by apply Hsets, IHsets. }
  destruct Hmain as (Hrows & Hkeys & Hsets).
  split; [done|]. split; [done|]. split; [|done].
  intros userID.
  destruct (Hkeys (buildRedisKey userID)) as [|(_ & userID' & Habs & _)];
    [done|]. by apply head_buffer_apart in Habs.
Qed.

(** X10.  The listener stops at the end of its context: what arrives
    after it is not handled.  Before it, handling a run of messages and
    then another is handling the two runs in a row. *)
Theorem listener_stops_at_done l rs1 rs2 w :
  StartKeyspaceListener l (rs1 ++ ctxDone :: rs2) w
  = StartKeyspaceListener l rs1 w
  /\ (existsb isDone rs1 = false ->
      StartKeyspaceListener l (rs1 ++ rs2) w
      = StartKeyspaceListener l rs2 (StartKeyspaceListener l rs1 w).2).
Proof.
  split.
  - revert w. induction rs1 as [|[|expiredKey] rs1 IH]; intros w; try done.
    cbn [app]. by rewrite !StartKeyspaceListener_msg.
  - revert w.
    induction rs1 as [|[|expiredKey] rs1 IH]; intros w Hnone; try done.
    cbn [app]. rewrite !StartKeyspaceListener_msg. by apply IH.
Qed.

Lemma listener_stops_at_done_witness :
  let key := buildRedisKey "user123" in
  let w := expire key (submit "user123" "" [(healthy, "dog")] cold) in
  existsb isDone [msg key] = false
  /\ user_searches
       (StartKeyspaceListener healthy ([msg key] ++ [ctxDone; msg key]) w).2
     = [mkRow "user123" "dog" ""].
Proof.
  intros key w. split; [reflexivity|].
  destruct (listener_stops_at_done healthy [msg key] [ctxDone; msg key] w)
    as [_ Hrun].
  rewrite (Hrun eq_refl). vm_compute. reflexivity.
Defined.

(** X11.  Messages for keys outside the head name space, the buffer
    keys among them, change nothing: the listener ends in the same world
    with and without them.  A buffer that runs out of time is dropped
    without a row. *)
Theorem listener_ignores_other_keys l rs userID w :
  StartKeyspaceListener l (filter heard rs) w = StartKeyspaceListener l rs w
  /\ onExpired l (bufferKey userID) w = (tt, w).
Proof.
  split; [|by apply onExpired_other].
  revert w. induction rs as [|[|expiredKey] rs IH]; intros w; [done| |].
  { by rewrite filter_cons_True. }
  destruct (strings.HasPrefix expiredKey "search:last:") eqn:Hp.
  - rewrite filter_cons_True by (by apply Is_true_true).
    rewrite !StartKeyspaceListener_msg. apply IH.
  - rewrite filter_cons_False by (by apply Is_true_false).
    rewrite StartKeyspaceListener_msg, onExpired_other by done. apply IH.
Qed.

(** ** [FlushUser] *)

Lemma FlushUser_run l userID anonID w :
  let key := if (userID =? "")%string then buildRedisKey anonID
             else buildRedisKey userID in
  let query := lastQueryRead l key w in
  let entry := mkSearchEntry userID query anonID in
  FlushUser l userID anonID w
  = (sqlError l entry,
     mkWorld (redis w) (user_searches w ++ written l entry)
             (calls w ++ RedisGet key :: sqlCalls l entry)).
Proof.
  intros key query entry. unfold FlushUser. fold key.
  unfold bind at 1. rewrite Get_run.
  set (r := if getFails (Redis l) key then _ else _).
  assert (Hr : r.1 = query).
  { unfold r, query, lastQueryRead, cached.
    destruct (getFails (Redis l) key); [done|].
    by destruct (redis w !! key) as [[]|]. }
  destruct r as [query' err]. simpl in Hr. subst query'. subst entry.
  unfold sqlError, written, sqlCalls. cbn [Query UserID AnonID].
  destruct (query =? "")%string eqn:E.
  - unfold ret. destruct (fault (DB l)); simpl; by rewrite ?app_nil_r.
  - rewrite writeSearch_run. unfold sqlError, written, sqlCalls.
    cbn [Query UserID AnonID redis user_searches calls]. rewrite E.
    by rewrite <- app_assoc.
Qed.

(** X12.  [FlushUser] reads the cache and never changes it.  When the
    head key of the user is missing, holds the empty string or cannot
    be read, it returns [nil] and writes nothing. *)
Theorem FlushUser_reads_only l userID anonID w :
  let key := if (userID =? "")%string then buildRedisKey anonID
             else buildRedisKey userID in
  let r := FlushUser l userID anonID w in
  redis r.2 = redis w
  /\ (getFails (Redis l) key = true \/ cached key w = "" ->
      r = (None, mkWorld (redis w) (user_searches w)
                         (calls w ++ [RedisGet key]))).
Proof.
  intros key r. subst r. rewrite FlushUser_run. fold key.
  split; [done|]. intros H.
  assert (Hq : lastQueryRead l key w = "").
  { unfold lastQueryRead. destruct (getFails _ _); [done|]. by destruct H. }
  rewrite Hq. unfold sqlError, written, sqlCalls. cbn [Query]. simpl.
  destruct (fault (DB l)); by rewrite app_nil_r.
Qed.

Lemma FlushUser_reads_only_witness :
  cached (buildRedisKey "test-user-empty") cold = ""
  /\ FlushUser healthy "test-user-empty" "" cold
     = (None, mkWorld ∅ [] [RedisGet (buildRedisKey "test-user-empty")]).
Proof.
  destruct (FlushUser_reads_only healthy "test-user-empty" "" cold)
    as [_ H].
  split; [reflexivity|]. apply H. by right.
Defined.

(** X13.  After a call of [LogSearch] that returned [nil], made with an
    empty user identifier or with one that is not blank, [FlushUser]
    for the same caller, with the services in order, writes the
    normalized query under the caller's identity and leaves the head in
    place, so that a second [FlushUser] writes the same row again. *)
Theorem FlushUser_after_LogSearch l l' userID userAgent query w :
  let q := normalizeQuery query in
  let id := idForRedis userID userAgent in
  let r := LogSearch l userID userAgent query w in
  let f := FlushUser l' userID (anonID userID userAgent) r.2 in
  let f' := FlushUser l' userID (anonID userID userAgent) f.2 in
  q <> "" -> r.1 = None ->
  userID = "" \/ isAnon userID = false ->
  getFails (Redis l') (buildRedisKey id) = false ->
  fault (DB l') = NoFault ->
  f.1 = None
  /\ user_searches f.2
     = (user_searches r.2 ++ [attributed userID userAgent q])%list
  /\ redis f.2 !! buildRedisKey id = Some (q, 10000000000%Z)
  /\ user_searches f'.2
     = (user_searches r.2
        ++ [attributed userID userAgent q; attributed userID userAgent q])%list.
Proof.
  intros q id r f f' Hq Hnil Hwho Hget Hdb.
  destruct (LogSearch_nil_cached l userID userAgent query w Hq Hnil)
    as [Hhead _]. fold r id q in Hhead.
  assert (Hkey : (if (userID =? "")%string
                  then buildRedisKey (anonID userID userAgent)
                  else buildRedisKey userID) = buildRedisKey id).
  { subst id. unfold idForRedis, anonID.
    destruct Hwho as [->|Hno]; [done|]. rewrite Hno.
    destruct (String.eqb_spec userID "") as [->|]; [done|done]. }
  assert (Hrun : forall w0,
            redis w0 !! buildRedisKey id = Some (q, 10000000000%Z) ->
            FlushUser l' userID (anonID userID userAgent) w0
            = (None,
               mkWorld (redis w0)
                 (user_searches w0 ++ [attributed userID userAgent q])
                 (calls w0 ++ RedisGet (buildRedisKey id)
                    :: sqlCalls l' (mkSearchEntry userID q
                                      (anonID userID userAgent))))).
  { intros w0 Hw0. rewrite FlushUser_run, Hkey.
    rewrite lastQueryRead_ok by done.
    rewrite (cached_lookup _ _ _ _ Hw0).
    unfold sqlError, written, attributed. cbn [Query UserID AnonID].
    apply String.eqb_neq in Hq. fold q. by rewrite Hq, Hdb. }
  assert (Hf : f = (None,
               mkWorld (redis r.2)
                 (user_searches r.2 ++ [attributed userID userAgent q])
                 (calls r.2 ++ RedisGet (buildRedisKey id)
                    :: sqlCalls l' (mkSearchEntry userID q
                                      (anonID userID userAgent)))))
    by (by apply Hrun).
  split; [by rewrite Hf|]. split; [by rewrite Hf|]. split; [by rewrite Hf|].
  subst f'. rewrite Hrun by (by rewrite Hf). rewrite Hf.
  cbn [snd user_searches]. by rewrite <- app_assoc.
Qed.

Lemma FlushUser_after_LogSearch_witness :
  let r := LogSearch healthy "user123" "" "dog" cold in
  let f := FlushUser healthy "user123" "" r.2 in
  r.1 = None /\ user_searches f.2 = [mkRow "user123" "dog" ""].
Proof.
  intros r f.
  assert (Hq : normalizeQuery "dog" <> "") by (vm_compute; discriminate).
  assert (Hnil : r.1 = None) by (vm_compute; reflexivity).
  destruct (FlushUser_after_LogSearch healthy healthy "user123" "" "dog" cold
              Hq Hnil (or_intror eq_refl) eq_refl eq_refl)
    as (_ & Hrows & _).
  split; [exact Hnil|]. exact (eq_trans Hrows eq_refl).
Defined.

(** ** The HTTP handler *)

(** X14.  A request that is not a POST is answered with 405, and a POST
    whose form cannot be parsed or has no value, or an empty value, for
    "q" with 400; in each case nothing is sent to Redis or to the
    database. *)
Theorem searchHandler_rejects s r w :
  (Method r <> "POST" ->
     searchHandler s r w = (Error "method not allowed" 405, w))
  /\ (Method r = "POST" -> Form r = None ->
        searchHandler s r w = (Error "error parsing form" 400, w))
  /\ (forall form,
        Method r = "POST" -> Form r = Some form -> FormValue form "q" = "" ->
        searchHandler s r w = (Error "missing query parameter q" 400, w)).
Proof.
  unfold searchHandler. split; [|split].
  - intros H. apply String.eqb_neq in H. by rewrite H.
  - intros -> ->. done.
  - intros form -> -> ->. done.
Qed.

Lemma searchHandler_rejects_witness :
  searchHandler (NewServer healthy) (mkRequest "GET" (Some ∅) "curl/8") cold
  = (mkResponse 405 ("method not allowed" ++ String "010" EmptyString), cold)
  /\ searchHandler (NewServer healthy)
       (mkRequest "POST" (Some {[ "user_id" := ["123"] ]}) "curl/8") cold
     = (mkResponse 400 ("missing query parameter q" ++ String "010" EmptyString),
        cold).
Proof.
  destruct (searchHandler_rejects (NewServer healthy)
              (mkRequest "GET" (Some ∅) "curl/8") cold) as (Hget & _).
  destruct (searchHandler_rejects (NewServer healthy)
              (mkRequest "POST" (Some {[ "user_id" := ["123"] ]}) "curl/8")
              cold) as (_ & _ & Hq).
  split.
  - apply Hget. discriminate.
  - apply (Hq {[ "user_id" := ["123"] ]}); reflexivity.
Defined.

(** X15.  A POST with a value for "q" is handed to [LogSearch] with the
    form's "user_id" and the User-Agent header, and leaves the world
    that [LogSearch] leaves.  The reply is 200 exactly when [LogSearch]
    returns [nil] and 500 otherwise.  So a 200 for a query with a
    non-empty normalized text means the text is under the head and the
    buffer of the caller, while a "q" of white space alone is answered
    with 200 and "Query logged" although nothing is cached or written. *)
Theorem searchHandler_logs s r form w :
  let query := FormValue form "q" in
  let userID := FormValue form "user_id" in
  let id := idForRedis userID (UserAgent r) in
  let h := searchHandler s r w in
  let ls := LogSearch (Logger_ s) userID (UserAgent r) query w in
  Method r = "POST" -> Form r = Some form -> query <> "" ->
  h.2 = ls.2
  /\ (status h.1 = 200%Z <-> ls.1 = None)
  /\ (status h.1 = 500%Z <-> ls.1 <> None)
  /\ (normalizeQuery query = "" ->
        h = (mkResponse 200 "Query logged", w))
  /\ (normalizeQuery query <> "" -> status h.1 = 200%Z ->
        redis h.2 !! buildRedisKey id
        = Some (normalizeQuery query, 10000000000%Z)
        /\ redis h.2 !! bufferKey id
           = Some (normalizeQuery query, 3600000000000%Z)).
Proof.
  intros query userID id h ls Hm Hf Hq.
  assert (Hh : h = match ls.1 with
                   | Some _ => (Error "error logging search" 500, ls.2)
                   | None => (mkResponse 200 "Query logged", ls.2)
                   end).
  { subst h ls. unfold searchHandler.
    rewrite Hm, String.eqb_refl, Hf. fold query userID.
    apply String.eqb_neq in Hq. rewrite Hq. cbn [negb].
    unfold bind. by destruct (LogSearch _ _ _ _ _) as [[e|] w']. }
  assert (Hstatus : status h.1 = 200%Z <-> ls.1 = None).
  { rewrite Hh. destruct (ls.1); simpl; split; done. }
  split; [|split; [done|split; [|split]]].
  - rewrite Hh. by destruct (ls.1).
  - rewrite Hh. destruct (ls.1); simpl; split; done.
  - intros He. rewrite Hh. subst ls. by rewrite LogSearch_empty.
  - intros Hn H200. apply Hstatus in H200.
    assert (Hw : h.2 = ls.2) by (rewrite Hh; by destruct (ls.1)).
    rewrite Hw. by apply LogSearch_nil_cached.
Qed.

(** The requests of the README: "business" for user 123, and a "q" of
    one space. *)
Lemma searchHandler_logs_witness :
  let s := NewServer healthy in
  let r := mkRequest "POST" (Some {[ "q" := ["business"]; "user_id" := ["123"] ]})
             "curl/8" in
  let blank := mkRequest "POST" (Some {[ "q" := [" "] ]}) "curl/8" in
  status (searchHandler s r cold).1 = 200%Z
  /\ redis (searchHandler s r cold).2 !! buildRedisKey "123"
     = Some ("business", 10000000000%Z)
  /\ searchHandler s blank cold = (mkResponse 200 "Query logged", cold).
Proof.
  intros s r blank.
  assert (H200 : status (searchHandler s r cold).1 = 200%Z)
    by (vm_compute; reflexivity).
  assert (Hq : FormValue {[ "q" := ["business"]; "user_id" := ["123"] ]} "q" <> "")
    by (vm_compute; discriminate).
  destruct (searchHandler_logs s r
              {[ "q" := ["business"]; "user_id" := ["123"] ]} cold
              eq_refl eq_refl Hq) as (_ & _ & _ & _ & Hcached).
  assert (Hb : FormValue {[ "q" := [" "] ]} "q" <> "")
    by (vm_compute; discriminate).
  destruct (searchHandler_logs s blank {[ "q" := [" "] ]} cold
              eq_refl eq_refl Hb) as (_ & _ & _ & Hblank & _).
  split; [exact H200|]. split.
  - assert (Hn : normalizeQuery "business" <> "") by (vm_compute; discriminate).
    exact (proj1 (Hcached Hn H200)).
  - apply Hblank. reflexivity.
Defined.

(** ** Runs of calls *)

Lemma LogSearch_serviceable l userID userAgent query w :
  let q := normalizeQuery query in
  let id := idForRedis userID userAgent in
  let h := cached (buildRedisKey id) w in
  let w' := (LogSearch l userID userAgent query w).2 in
  q <> "" -> serviceable l id ->
  user_searches w'
  = (user_searches w
     ++ if isReset h q then [attributed userID userAgent h] else [])%list
  /\ cached (buildRedisKey id) w' = q.
Proof.
  intros q id h w' Hq (Hget & Hwr & Hdb). subst w'.
  rewrite LogSearch_run by done. fold q id.
  rewrite lastQueryRead_ok by done. fold h.
  unfold sqlError, written, attributed. cbn [Query UserID AnonID].
  rewrite Hdb.
  assert (Hc : forall rows cs,
             cached (buildRedisKey id) (cachedWorld l id q rows cs w) = q).
  { intros. eapply cached_lookup. by apply cachedWorld_lookup. }
  destruct (isReset h q) eqn:Hreset; [|cbn [snd]; by rewrite Hc].
  apply isReset_spec in Hreset as (Hh%String.eqb_neq & _).
  rewrite Hh. cbn [snd]. by rewrite Hc.
Qed.

Lemma last_cons {A} (l : list A) a d : List.last (a :: l) d = List.last l a.
Proof.
  revert a d. induction l as [|b l IH]; intros a d; [done|].
  change (List.last (a :: b :: l) d) with (List.last (b :: l) d).
  by rewrite !IH.
Qed.

(** X16.  Over a run of calls by one caller that the services all
    answer, each with a non-empty normalized query, the rows added to
    the table are, in order, the queries after which the next query
    reset: one row for each burst that a later query ended, none for the
    burst still open, whose last query is the head. *)
Theorem submit_writes_completed userID userAgent cs w :
  let id := idForRedis userID userAgent in
  let qs := map (fun c => normalizeQuery c.2) cs in
  let w' := submit userID userAgent cs w in
  Forall (fun c => serviceable c.1 id /\ normalizeQuery c.2 <> "") cs ->
  user_searches w'
  = (user_searches w
     ++ map (attributed userID userAgent)
            (completed (cached (buildRedisKey id) w) qs))%list
  /\ cached (buildRedisKey id) w' = List.last qs (cached (buildRedisKey id) w).
Proof.
  intros id qs w'. subst qs w'. revert w.
  induction cs as [|[l query] cs IH]; intros w Hall.
  { simpl. by rewrite app_nil_r. }
  apply Forall_cons in Hall as [[Hsrv Hq] Hall]. cbn [fst snd] in Hsrv, Hq.
  destruct (LogSearch_serviceable l userID userAgent query w Hq Hsrv)
    as [Hrows Hhead]. fold id in Hrows, Hhead.
  destruct (IH (LogSearch l userID userAgent query w).2 Hall)
    as [IHrows IHlast].
  cbn [submit map completed snd]. rewrite IHrows, IHlast, Hrows, Hhead.
  split.
  - rewrite map_app, <- app_assoc. f_equal. f_equal.
    by destruct (isReset _ _).
  - by rewrite last_cons.
Qed.

(** Two bursts and the start of a third. *)
Lemma submit_writes_completed_witness :
  let cs := map (fun q => (healthy, q))
              ["bus"; "busi"; "business"; "data"; "dat"; "reset"] in
  Forall (fun c => serviceable c.1 (idForRedis "" "TestAgent")
                   /\ normalizeQuery c.2 <> "") cs
  /\ map search_text (user_searches (submit "" "TestAgent" cs cold))
     = ["business"; "dat"].
Proof.
  intros cs.
  assert (Hall : Forall (fun c => serviceable c.1 (idForRedis "" "TestAgent")
                                  /\ normalizeQuery c.2 <> "") cs).
  { repeat constructor; vm_compute; discriminate. }
  split; [exact Hall|].
  rewrite (proj1 (submit_writes_completed "" "TestAgent" cs cold Hall)).
  vm_compute. reflexivity.
Defined.

Lemma store_lookup_same l key key' value expiration
  (m m' : gmap string (string * Z)) :
  m !! key' = m' !! key' ->
  store l key value expiration m !! key'
  = store l key value expiration m' !! key'.
Proof.
  unfold store. intros H. destruct (setFails (Redis l) key); [done|].
  destruct (decide (key = key')) as [->|Hne].
  - by rewrite !lookup_insert_eq.
  - by rewrite !lookup_insert_ne.
Qed.

(** X17.  A call of [LogSearch] for another identity just before makes
    no difference to a call: it returns the same error, adds the same
    rows, sends the same commands and leaves the same head and buffer
    for its identity. *)
Theorem LogSearch_noninterference l userID userAgent query
    l' userID' userAgent' query' w :
  let A := idForRedis userID userAgent in
  let B := idForRedis userID' userAgent' in
  let w0 := (LogSearch l' userID' userAgent' query' w).2 in
  let r := LogSearch l userID userAgent query w in
  let r0 := LogSearch l userID userAgent query w0 in
  A <> B ->
  r0.1 = r.1
  /\ skipn (length (user_searches w0)) (user_searches r0.2)
     = skipn (length (user_searches w)) (user_searches r.2)
  /\ skipn (length (calls w0)) (calls r0.2)
     = skipn (length (calls w)) (calls r.2)
  /\ redis r0.2 !! buildRedisKey A = redis r.2 !! buildRedisKey A
  /\ redis r0.2 !! bufferKey A = redis r.2 !! bufferKey A.
Proof.
  intros A B w0 r r0 Hne.
  assert (Hhead : redis w0 !! buildRedisKey A = redis w !! buildRedisKey A).
  { apply LogSearch_frame; fold B;
      [by intros E%buildRedisKey_inj|apply head_buffer_apart]. }
  assert (Hbuffer : redis w0 !! bufferKey A = redis w !! bufferKey A).
  { apply LogSearch_frame; fold B;
      [apply buffer_head_apart|by intros E%bufferKey_inj]. }
  subst r r0.
  destruct (String.eqb_spec (normalizeQuery query) "") as [He|Hq].
  { rewrite !LogSearch_empty by done. cbn [fst snd].
    by rewrite !skipn_all. }
  rewrite !LogSearch_run by done. fold A.
  assert (Hread : lastQueryRead l (buildRedisKey A) w0
                  = lastQueryRead l (buildRedisKey A) w).
  { unfold lastQueryRead, cached. by rewrite Hhead. }
  rewrite Hread.
  destruct (isReset _ _); [destruct (sqlError l _)|]; cbn [fst snd];
    unfold flushFailedWorld, cachedWorld; cbn [redis user_searches calls];
    rewrite !skipn_app, !Nat.sub_diag, !skipn_all; simpl;
    repeat split; try done;
    repeat apply store_lookup_same; done.
Qed.

Lemma LogSearch_noninterference_witness :
  let w0 := (LogSearch healthy "" "AnonB" "beta" cold).2 in
  idForRedis "" "AnonA" <> idForRedis "" "AnonB"
  /\ redis (LogSearch healthy "" "AnonA" "alpha" w0).2
       !! buildRedisKey (generateAnonID "AnonA")
     = Some ("alpha", 10000000000%Z).
Proof.
  intros w0.
  assert (Hne : idForRedis "" "AnonA" <> idForRedis "" "AnonB")
    by (vm_compute; discriminate).
  split; [exact Hne|].
  destruct (LogSearch_noninterference healthy "" "AnonA" "alpha"
              healthy "" "AnonB" "beta" cold Hne) as (_ & _ & _ & Hhead & _).
  exact (eq_trans Hhead eq_refl).
Defined.

(** X18.  When the head of the caller is missing, [LogSearch] writes no
    row and sends no SQL command, whatever the buffer holds, and when
    the cache takes the writes the buffer holds the new query: a buffer
    that the listener has not written out is overwritten, not logged. *)
Theorem LogSearch_head_missing l userID userAgent query w :
  let q := normalizeQuery query in
  let id := idForRedis userID userAgent in
  let w' := (LogSearch l userID userAgent query w).2 in
  redis w !! buildRedisKey id = None ->
  user_searches w' = user_searches w
  /\ filter isSql (calls w') = filter isSql (calls w)
  /\ (q <> "" -> writable l id ->
        redis w' !! bufferKey id = Some (q, 3600000000000%Z)).
Proof.
  intros q id w' Hnone. subst w'.
  destruct (String.eqb_spec (normalizeQuery query) "") as [He|Hq].
  { by rewrite LogSearch_empty. }
  assert (Hrel : related (cached (buildRedisKey id) w) (normalizeQuery query)).
  { unfold cached. rewrite Hnone. right. by destruct (normalizeQuery query). }
  rewrite LogSearch_run by done. fold id q.
  assert (Hno : isReset (lastQueryRead l (buildRedisKey id) w) q = false).
  { unfold lastQueryRead. destruct (getFails _ _); [done|].
    by apply related_no_reset. }
  rewrite Hno. unfold cachedWorld at 1 2. cbn [snd user_searches calls].
  split; [by rewrite app_nil_r|]. split.
  - rewrite filter_app. simpl. by rewrite app_nil_r.
  - intros _ Hwr. by apply cachedWorld_lookup.
Qed.

(** "hello" is left in the buffer after the head expired; "world"
    replaces it, and the table stays empty. *)
Lemma LogSearch_head_missing_witness :
  let key := buildRedisKey "user123" in
  let w := expire key (submit "user123" "" [(healthy, "hello")] cold) in
  let w' := (LogSearch healthy "user123" "" "world" w).2 in
  redis w !! key = None
  /\ redis w !! bufferKey "user123" = Some ("hello", 3600000000000%Z)
  /\ user_searches w' = []
  /\ redis w' !! bufferKey "user123" = Some ("world", 3600000000000%Z).
Proof.
  intros key w w'.
  assert (Hnone : redis w !! key = None) by (vm_compute; reflexivity).
  destruct (LogSearch_head_missing healthy "user123" "" "world" w Hnone)
    as (Hrows & _ & Hbuffer).
  split; [exact Hnone|]. split; [vm_compute; reflexivity|].
  split; [exact (eq_trans Hrows eq_refl)|].
  apply Hbuffer; [vm_compute; discriminate|by split].
Defined.
